(** * Effective REST request computation (helpers/utils/EffectiveURL.ts)

    A shallow embedding of the request materialisation code of the
    Hoppscotch application: computed headers and parameters, body
    materialisation and the assembly of the effective request.

    A JavaScript string is modelled by the [string] of the bytes of its
    UTF-8 encoding.  A call that can throw returns a [Completion]; the store
    of the application is threaded through the function that reads it.  The
    functions the module imports (template resolution, raw entry parsing,
    base64, the array sort, query string serialisation) are gathered in the
    class [Collaborators], so that every statement about the module holds
    for all of them; a reference instance gives executable stand-ins for
    concrete evaluation. *)

From Stdlib Require Import List String Ascii ZArith NArith Bool Lia Permutation.
Import ListNotations.
Open Scope string_scope.

(** ** Data model (types of @hoppscotch/data used by the module) *)

(** fp-ts [Either]: [Left] carries the failure, [Right] the result. *)
Inductive Either (L R : Type) : Type :=
| Left (l : L)
| Right (r : R).
Arguments Left {L R} l.
Arguments Right {L R} r.

(** [Environment["variables"]] and the request's local [vars]. *)
Module Var.
Record t : Type := mk { key : string; value : string }.
End Var.
Definition Variables := list Var.t.
Bind Scope list_scope with Variables.

Record Environment : Type := mkEnvironment {
  env_name : string;
  variables : Variables
}.

(** [HoppRESTHeader], [HoppRESTParam] and the raw key/value entries all have
    the shape [{ key, value, active }]. *)
Module KV.
Record t : Type := mk { active : bool; key : string; value : string }.
End KV.
Definition HoppRESTHeader := KV.t.
Definition HoppRESTParam := KV.t.
Definition RawKeyValueEntry := KV.t.

(** A binary object handed through untouched. *)
Inductive Blob : Type := BlobRef (id : nat).

(** [FormDataKeyValue]: the [isFile] tag chooses between a list of blobs and
    a string. *)
Inductive FormDataValue : Type :=
| FileValue (blobs : list Blob)
| TextValue (text : string).

Module FD.
Record t : Type := mk { key : string; active : bool; value : FormDataValue }.
Definition isFile (x : t) : bool :=
  match value x with FileValue _ => true | TextValue _ => false end.
End FD.
Definition FormDataKeyValue := FD.t.

(** [HoppRESTAuth]: a union tagged by [authType]; [authActive] is common to
    all variants. *)
Inductive AuthInfo : Type :=
| AuthNone
| AuthBasic (username password : string)
| AuthBearer (token : string)
| AuthOAuth2 (token : string)
| AuthApiKey (key value addTo : string).

Record HoppRESTAuth : Type := mkAuth {
  authActive : bool;
  authInfo : AuthInfo
}.

(** [HoppRESTReqBody]: a union tagged by [contentType]. *)
Inductive HoppRESTReqBody : Type :=
| BodyNone
| BodyUrlEncoded (body : string)
| BodyMultipart (body : list FormDataKeyValue)
| BodyRaw (contentType : string) (body : string).

Definition contentType (b : HoppRESTReqBody) : option string :=
  match b with
  | BodyNone => None
  | BodyUrlEncoded _ => Some "application/x-www-form-urlencoded"
  | BodyMultipart _ => Some "multipart/form-data"
  | BodyRaw ct _ => Some ct
  end.

Record HoppRESTRequest : Type := mkRequest {
  endpoint : string;
  headers : list HoppRESTHeader;
  params : list HoppRESTParam;
  vars : Variables;
  auth : HoppRESTAuth;
  body : HoppRESTReqBody
}.

(** One entry of a [FormData] container: a key with a string or a blob. *)
Inductive FormDataEntryValue : Type :=
| EntryBlob (b : Blob)
| EntryText (s : string).

Definition FormData := list (string * FormDataEntryValue).

(** [FormData | string | null] *)
Inductive FinalBody : Type :=
| FinalNull
| FinalString (s : string)
| FinalFormData (fd : FormData).

Record EffectiveHoppRESTRequest : Type := mkEffective {
  request : HoppRESTRequest;
  effectiveFinalURL : string;
  effectiveFinalHeaders : list KV.t;
  effectiveFinalParams : list KV.t;
  effectiveFinalBody : FinalBody;
  effectiveFinalVars : Variables
}.

Inductive Source : Type := SourceAuth | SourceBody.

Record ComputedHeader : Type := mkComputedHeader {
  ch_source : Source;
  header : HoppRESTHeader
}.

Record ComputedParam : Type := mkComputedParam {
  cp_source : Source;
  param : HoppRESTParam
}.

(** ** Exceptions and the store *)

(** The outcome of a call: it returns a value or throws an exception, named
    by [e]. *)
Inductive Completion (A : Type) : Type :=
| Returns (a : A)
| Throws (e : string).
Arguments Returns {A} a.
Arguments Throws {A} e.

Definition bind {A B : Type} (c : Completion A) (k : A -> Completion B)
  : Completion B :=
  match c with
  | Returns a => k a
  | Throws e => Throws e
  end.

Notation "x <- c ;; k" := (bind c (fun x => k))
  (at level 61, c at next level, right associativity).

(** The store of the application (~/newstore/environments): the global
    variables, and whatever else the application keeps, of a type [R] left
    open. *)
Record Store (R : Type) : Type := mkStore {
  globalVariables : Variables;
  otherState : R
}.
Arguments mkStore {R} _ _.
Arguments globalVariables {R} _.
Arguments otherState {R} _.

(** [getGlobalVariables ()] reads the global variables of the store. *)
Definition getGlobalVariables {R : Type} (s : Store R) : Variables :=
  globalVariables s.

(** ** Imported functions *)

(** The functions the module imports and does not define.  The optional
    third argument of [parseTemplateString] is the empty list when the call
    site omits it.  A JavaScript object with array values is an association
    list.  [btoa] throws on a string that holds a character above U+00FF. *)
Class Collaborators : Type := {
  parseTemplateString : string -> Variables -> Variables -> string;
  parseTemplateStringE : string -> Variables -> Either string string;
  parseBodyEnvVariables : string -> Variables -> string;
  parseRawKeyValueEntriesE : string -> Either string (list RawKeyValueEntry);
  btoa : string -> Completion string;
  arraySort : forall T : Type, (T -> T -> Z) -> list T -> list T;
  tupleWithSameKeysToRecord :
    list (string * string) -> list (string * list string);
  qs_stringify : list (string * list string) -> string
}.
Arguments arraySort {_ T} _ _.

(** [String.prototype.toLowerCase] on the ASCII letters; every other
    character is left as it is. *)
Definition lower_ascii (c : ascii) : ascii :=
  let n := nat_of_ascii c in
  if (65 <=? n)%nat && (n <=? 90)%nat then ascii_of_nat (n + 32) else c.

Fixpoint toLowerCase (s : string) : string :=
  match s with
  | EmptyString => EmptyString
  | String c s' => String (lower_ascii c) (toLowerCase s')
  end.

(** Modelled from the spec: [arrayFlatMap] of helpers/functional/array is not
    among the sources; it expands every element into a list and
    concatenates the lists in order. *)
Definition arrayFlatMap {A B : Type} (f : A -> list B) (l : list A) : list B :=
  flat_map f l.

(** Modelled from the spec: [toFormData] of helpers/functional/formData is
    not among the sources; it assembles the entries into a container
    preserving their order. *)
Definition toFormData (entries : list (string * FormDataEntryValue)) : FormData :=
  entries.

(** fp-ts [A.filterMap]. *)
Fixpoint filterMap {A B : Type} (f : A -> option B) (l : list A) : list B :=
  match l with
  | [] => []
  | x :: l' =>
      match f x with
      | Some y => y :: filterMap f l'
      | None => filterMap f l'
      end
  end.

(** ** The module *)

Section EffectiveURL.
Context {C : Collaborators}.

Definition getComputedAuthHeaders
    (req : HoppRESTRequest) (envVars : Variables)
  : Completion (list HoppRESTHeader) :=
  match find (fun h => toLowerCase (KV.key h) =? "authorization") (headers req) with
  | Some _ => Returns []
  | None =>
      if negb (authActive (auth req)) then Returns []
      else
        match authInfo (auth req) with
        | AuthBasic u p =>
            let username := parseTemplateString u envVars [] in
            let password := parseTemplateString p envVars [] in
            encoded <- btoa (username ++ ":" ++ password) ;;
            Returns [ KV.mk true "Authorization" ("Basic " ++ encoded) ]
        | AuthBearer tok | AuthOAuth2 tok =>
            Returns
              [ KV.mk true "Authorization"
                  ("Bearer " ++ parseTemplateString tok envVars []) ]
        | AuthApiKey key value addTo =>
            if addTo =? "Headers" then
              Returns
                [ KV.mk true (parseTemplateString key envVars [])
                    (parseTemplateString value envVars []) ]
            else Returns []
        | AuthNone => Returns []
        end
  end.

Definition getComputedBodyHeaders (req : HoppRESTRequest) : list HoppRESTHeader :=
  match find (fun h => KV.active h && (toLowerCase (KV.key h) =? "content-type"))
             (headers req) with
  | Some _ => []
  | None =>
      match contentType (body req) with
      | None => []
      | Some ct => [ KV.mk true "content-type" ct ]
      end
  end.

Definition getComputedHeaders
    (req : HoppRESTRequest) (envVars : Variables)
  : Completion (list ComputedHeader) :=
  authHeaders <- getComputedAuthHeaders req envVars ;;
  Returns
    (map (mkComputedHeader SourceAuth) authHeaders
     ++ map (mkComputedHeader SourceBody) (getComputedBodyHeaders req))%list.

Definition getComputedParams
    (req : HoppRESTRequest) (envVars : Variables) : list ComputedParam :=
  if negb (authActive (auth req)) then []
  else
    match authInfo (auth req) with
    | AuthApiKey key value addTo =>
        if negb (addTo =? "Query params") then []
        else
          [ mkComputedParam SourceAuth
              (KV.mk true (parseTemplateString key envVars [])
                 (parseTemplateString value envVars [])) ]
    | _ => []
    end.

(** Resolves environment variables in the body.  The test
    [!body.contentType] holds for [null] and for the empty string. *)
Definition resolvesEnvsInBody (b : HoppRESTReqBody) (env : Environment)
  : HoppRESTReqBody :=
  match b with
  | BodyNone => BodyNone
  | BodyMultipart entries =>
      BodyMultipart
        (map (fun entry =>
                FD.mk (parseTemplateString (FD.key entry) (variables env) [])
                  (FD.active entry)
                  match FD.value entry with
                  | FileValue blobs => FileValue blobs
                  | TextValue s =>
                      TextValue (parseTemplateString s (variables env) [])
                  end)
             entries)
  | BodyUrlEncoded raw =>
      BodyUrlEncoded (parseTemplateString raw (variables env) [])
  | BodyRaw ct raw =>
      if ct =? "" then BodyRaw ct raw
      else BodyRaw ct (parseTemplateString raw (variables env) [])
  end.

(** The comparator handed to [arraySort] ("Sort files down"). *)
Definition filesDownCompare (a b : FormDataKeyValue) : Z :=
  if FD.isFile a then 1%Z
  else if FD.isFile b then (-1)%Z
  else 0%Z.

(** The function handed to [arrayFlatMap]: one entry per blob of a file
    entry, one entry for a text entry. *)
Definition splitBlobs (envVariables : Variables) (x : FormDataKeyValue)
  : list (string * FormDataEntryValue) :=
  match FD.value x with
  | FileValue blobs =>
      map (fun v => (parseTemplateString (FD.key x) envVariables [], EntryBlob v))
          blobs
  | TextValue s =>
      [ (parseTemplateString (FD.key x) envVariables [],
         EntryText (parseTemplateString s envVariables [])) ]
  end.

(** The entries of a urlencoded body that reach the serialiser. *)
Definition urlEncodedPairs (envVariables : Variables)
    (entries : list RawKeyValueEntry) : list (string * string) :=
  filterMap
    (fun kv : Either string string * Either string string =>
       match kv with
       | (Right k, Right v) => Some (k, v)
       | _ => None
       end)
    (map (fun e => (parseTemplateStringE (KV.key e) envVariables,
                    parseTemplateStringE (KV.value e) envVariables))
         (filter (fun e => KV.active e && negb (KV.key e =? "")) entries)).

Definition getFinalBodyFromRequest
    (req : HoppRESTRequest) (envVariables : Variables) : FinalBody :=
  match body req with
  | BodyNone => FinalNull
  | BodyUrlEncoded raw =>
      match parseRawKeyValueEntriesE raw with
      | Right entries =>
          FinalString
            (qs_stringify
               (tupleWithSameKeysToRecord (urlEncodedPairs envVariables entries)))
      | Left _ => FinalNull
      end
  | BodyMultipart entries =>
      FinalFormData
        (toFormData
           (arrayFlatMap (splitBlobs envVariables)
              (arraySort filesDownCompare
                 (filter (fun x => negb (FD.key x =? "") && FD.active x) entries))))
  | BodyRaw _ raw => FinalString (parseBodyEnvVariables raw envVariables)
  end.

(** The filter and the resolution applied to the headers and to the
    parameters. *)
Definition resolveEntries (envVariables : Variables) (l : list KV.t) : list KV.t :=
  map (fun x => KV.mk true
                  (parseTemplateString (KV.key x) envVariables [])
                  (parseTemplateString (KV.value x) envVariables []))
      (filter (fun x => KV.active x && negb (KV.key x =? "")) l).

(** The call takes the store and gives it back with its outcome; an
    exception of the computed headers ends it. *)
Definition getEffectiveRESTRequest {R : Type}
    (req : HoppRESTRequest) (environment : Environment) (s : Store R)
  : Completion EffectiveHoppRESTRequest * Store R :=
  let envVariables := (variables environment ++ getGlobalVariables s)%list in
  (computedHeaders <- getComputedHeaders req envVariables ;;
   let effectiveFinalHeaders :=
     resolveEntries envVariables
       (map header computedHeaders ++ headers req)%list in
   let effectiveFinalParams :=
     resolveEntries envVariables
       (map param (getComputedParams req envVariables) ++ params req)%list in
   let effectiveFinalVars := vars req in
   let effectiveFinalBody := getFinalBodyFromRequest req envVariables in
   Returns
     (mkEffective req
        (parseTemplateString (endpoint req) envVariables (vars req))
        effectiveFinalHeaders effectiveFinalParams effectiveFinalBody
        effectiveFinalVars),
   s).

End EffectiveURL.

(** ** The contract of the array sort *)

(** Modelled from the spec: [arraySort] of helpers/functional/array is not
    among the sources; the spec describes the step as a stable sort (the
    result is ordered and ties preserve their relative order).  For a
    comparator [cmp] (negative, zero, positive), [l'] is a stable sorting of
    [l] when it is a rearrangement of [l], when no two elements that [cmp]
    orders the same way from both sides stand in the opposite order, and when
    the elements tied with any given element are in the order they have in
    [l]. *)
Definition tied {T : Type} (cmp : T -> T -> Z) (x y : T) : bool :=
  ((cmp x y =? 0) && (cmp y x =? 0))%Z.

Record StableSorting {T : Type} (cmp : T -> T -> Z) (l l' : list T) : Prop := {
  sorting_perm : Permutation l l';
  sorting_ordered :
    forall l1 x l2 y l3,
      l' = (l1 ++ x :: l2 ++ y :: l3)%list ->
      ~ ((cmp x y > 0)%Z /\ (cmp y x < 0)%Z);
  sorting_stable :
    forall x, filter (tied cmp x) l' = filter (tied cmp x) l
}.

(** ** Reference collaborators *)

Module Reference.

(** *** Template resolution *)

(** First binding of [name] in the ordered scope. *)
Definition lookup (scope : Variables) (name : string) : option string :=
  option_map Var.value (find (fun v => Var.key v =? name) scope).

Inductive ScanState : Type :=
| Outside
| OneBrace
| Inside (name : string)
| Closing (name : string).

Definition isChar (c d : ascii) : bool := Ascii.eqb c d.

(** A left-to-right scan for placeholders [{{name}}], the name free of
    closing braces; [subst] gives the replacement of a placeholder or
    fails. *)
Fixpoint scan (subst : string -> option string) (st : ScanState) (s : string)
  : option string :=
  match s with
  | EmptyString =>
      Some match st with
           | Outside => ""
           | OneBrace => "{"
           | Inside n => "{{" ++ n
           | Closing n => "{{" ++ n ++ "}"
           end
  | String c s' =>
      match st with
      | Outside =>
          if isChar c "{" then scan subst OneBrace s'
          else option_map (String c) (scan subst Outside s')
      | OneBrace =>
          if isChar c "{" then scan subst (Inside "") s'
          else option_map (fun r => String "{" (String c r)) (scan subst Outside s')
      | Inside n =>
          if isChar c "}" then scan subst (Closing n) s'
          else scan subst (Inside (n ++ String c "")) s'
      | Closing n =>
          if isChar c "}" then
            match subst n with
            | Some v => option_map (append v) (scan subst Outside s')
            | None => None
            end
          else
            option_map (append ("{{" ++ n ++ "}"))
              (if isChar c "{" then scan subst OneBrace s'
               else option_map (String c) (scan subst Outside s'))
      end
  end.

(** Modelled from the spec: the template resolver of @hoppscotch/data is
    not among the sources; it substitutes every occurrence of a bound
    placeholder and leaves an unbound placeholder as literal text. *)
Definition resolveTemplate (scope : Variables) (text : string) : string :=
  let subst n :=
    Some match lookup scope n with
         | Some v => v
         | None => "{{" ++ n ++ "}}"
         end in
  match scan subst Outside text with
  | Some r => r
  | None => text
  end.

(** Modelled from the spec: [parseTemplateString] of @hoppscotch/data is not
    among the sources; the local variables, when given, are consulted
    before the scope. *)
Definition parseTemplateString
    (str : string) (variables myVariables : Variables) : string :=
  resolveTemplate (myVariables ++ variables)%list str.

(** Modelled from the spec: [parseTemplateStringE] of @hoppscotch/data is
    not among the sources; it resolves as [parseTemplateString] does but
    reports a failure instead of leaving an unbound placeholder. *)
Definition parseTemplateStringE
    (str : string) (variables : Variables) : Either string string :=
  match scan (lookup variables) Outside str with
  | Some r => Right r
  | None => Left "UNBOUND_PLACEHOLDER"
  end.

(** Modelled from the spec: [parseBodyEnvVariables] of @hoppscotch/data is
    not among the sources; it resolves the placeholders of the whole raw
    body. *)
Definition parseBodyEnvVariables (raw : string) (variables : Variables) : string :=
  resolveTemplate variables raw.

(** *** Base64 ([btoa] of the platform) *)

Definition b64_table : string :=
  "ABCDEFGHIJKLMNOPQRSTUVWXYZabcdefghijklmnopqrstuvwxyz0123456789+/".

Definition b64_digit (n : N) : string :=
  match String.get (N.to_nat n) b64_table with
  | Some c => String c ""
  | None => "="
  end.

Fixpoint b64_groups (l : list N) : string :=
  match l with
  | [] => ""
  | [a] =>
      b64_digit (a / 4) ++ b64_digit ((a mod 4) * 16) ++ "=="
  | [a; b] =>
      b64_digit (a / 4) ++ b64_digit ((a mod 4) * 16 + b / 16)
      ++ b64_digit ((b mod 16) * 4) ++ "="
  | a :: b :: c :: rest =>
      b64_digit (a / 4) ++ b64_digit ((a mod 4) * 16 + b / 16)
      ++ b64_digit ((b mod 16) * 4 + c / 64) ++ b64_digit (c mod 64)
      ++ b64_groups rest
  end%N.

(** The characters of a text given by its UTF-8 bytes, when none is above
    U+00FF: a byte below 128 is its character, the lead bytes 194 and 195
    with a continuation byte give the characters U+0080 to U+00FF, and every
    other byte starts a character above U+00FF or is not UTF-8. *)
Fixpoint latin1 (bytes : list N) : Completion (list N) :=
  match bytes with
  | [] => Returns []
  | b :: rest =>
      if (b <? 128)%N then
        chars <- latin1 rest ;; Returns (b :: chars)
      else if ((b =? 194) || (b =? 195))%N then
        match rest with
        | c :: rest' =>
            if ((128 <=? c) && (c <? 192))%N then
              chars <- latin1 rest' ;;
              Returns (((b - 192) * 64 + (c - 128))%N :: chars)
            else Throws "InvalidCharacterError"
        | [] => Throws "InvalidCharacterError"
        end
      else Throws "InvalidCharacterError"
  end.

(** [btoa]: the base64 encoding of the characters, each one byte, and an
    [InvalidCharacterError] when a character is above U+00FF. *)
Definition btoa (s : string) : Completion string :=
  chars <- latin1 (map N_of_ascii (list_ascii_of_string s)) ;;
  Returns (b64_groups chars).

(** *** Two stable insertion sorts *)

(** [x] stood before the elements of the sorted list [l].  The first
    routine asks the comparator for (earlier, later) and moves [x] behind
    [y] when the answer is positive; the second asks for (later, earlier)
    and moves [y] in front of [x] when the answer is negative.  On a
    comparator that answers both questions alike the two coincide. *)
Fixpoint insertEarlierLater {T : Type} (cmp : T -> T -> Z) (x : T) (l : list T)
  : list T :=
  match l with
  | [] => [x]
  | y :: l' =>
      if (cmp x y <=? 0)%Z then x :: y :: l'
      else y :: insertEarlierLater cmp x l'
  end.

Fixpoint insertLaterEarlier {T : Type} (cmp : T -> T -> Z) (x : T) (l : list T)
  : list T :=
  match l with
  | [] => [x]
  | y :: l' =>
      if (cmp y x <? 0)%Z then y :: insertLaterEarlier cmp x l'
      else x :: y :: l'
  end.

Definition sortEarlierLater (T : Type) (cmp : T -> T -> Z) (l : list T) : list T :=
  fold_right (insertEarlierLater cmp) [] l.

Definition sortLaterEarlier (T : Type) (cmp : T -> T -> Z) (l : list T) : list T :=
  fold_right (insertLaterEarlier cmp) [] l.

(** *** Raw key/value entries *)

Fixpoint splitOn (sep : ascii -> bool) (cur s : string) : list string :=
  match s with
  | EmptyString => [cur]
  | String c s' =>
      if sep c then cur :: splitOn sep "" s'
      else splitOn sep (cur ++ String c "") s'
  end.

(** Splits at the first [=]. *)
Fixpoint splitEntry (cur s : string) : option (string * string) :=
  match s with
  | EmptyString => None
  | String c s' =>
      if isChar c "=" then Some (cur, s')
      else splitEntry (cur ++ String c "") s'
  end.

Fixpoint parseSegments (segs : list string)
  : Either string (list RawKeyValueEntry) :=
  match segs with
  | [] => Right []
  | seg :: rest =>
      if seg =? "" then parseSegments rest
      else
        match splitEntry "" seg with
        | None => Left ("MALFORMED_ENTRY: " ++ seg)
        | Some (k, v) =>
            match parseSegments rest with
            | Right es => Right (KV.mk true k v :: es)
            | Left e => Left e
            end
        end
  end.

(** Modelled from the spec: [parseRawKeyValueEntriesE] of @hoppscotch/data
    is not among the sources; the raw text is a sequence of [key=value]
    entries delimited by newlines or ampersands, and a malformed entry
    makes the parse fail. *)
Definition parseRawKeyValueEntriesE (raw : string)
  : Either string (list RawKeyValueEntry) :=
  parseSegments
    (splitOn (fun c => isChar c "010" || isChar c "&") "" raw).

(** *** Grouping and query string serialisation *)

Fixpoint addToRecord (k v : string) (r : list (string * list string))
  : list (string * list string) :=
  match r with
  | [] => [(k, [v])]
  | (k', vs) :: r' =>
      if k' =? k then (k', (vs ++ [v])%list) :: r'
      else (k', vs) :: addToRecord k v r'
  end.

(** Modelled from the spec: [tupleWithSameKeysToRecord] of
    helpers/functional/record is not among the sources; entries with the
    same key are grouped, the keys in first-seen order. *)
Definition tupleWithSameKeysToRecord (tuples : list (string * string))
  : list (string * list string) :=
  fold_left (fun r kv => addToRecord (fst kv) (snd kv) r) tuples [].

Definition hexDigit (n : N) : string :=
  match String.get (N.to_nat n) "0123456789ABCDEF" with
  | Some c => String c ""
  | None => ""
  end.

Definition unreserved (c : ascii) : bool :=
  let n := N_of_ascii c in
  ((48 <=? n) && (n <=? 57) || (65 <=? n) && (n <=? 90)
   || (97 <=? n) && (n <=? 122)
   || (n =? 45) || (n =? 46) || (n =? 95) || (n =? 126))%N.

Fixpoint percentEncode (s : string) : string :=
  match s with
  | EmptyString => ""
  | String c s' =>
      (if unreserved c then String c ""
       else "%" ++ hexDigit (N_of_ascii c / 16) ++ hexDigit (N_of_ascii c mod 16))
      ++ percentEncode s'
  end.

(** [qs.stringify (obj, { indices: false })] on an object whose values are
    arrays of strings: one [key=value] pair per value, joined by [&]. *)
Definition qs_stringify (obj : list (string * list string)) : string :=
  String.concat "&"
    (flat_map
       (fun kvs => map (fun v => percentEncode (fst kvs) ++ "=" ++ percentEncode v)
                       (snd kvs))
       obj).

(** The reference collaborators; the second instance differs in the sort
    routine only. *)
Definition collaborators : Collaborators :=
  Build_Collaborators parseTemplateString parseTemplateStringE
    parseBodyEnvVariables parseRawKeyValueEntriesE btoa sortLaterEarlier
    tupleWithSameKeysToRecord qs_stringify.

Definition collaboratorsEarlierLater : Collaborators :=
  Build_Collaborators parseTemplateString parseTemplateStringE
    parseBodyEnvVariables parseRawKeyValueEntriesE btoa sortEarlierLater
    tupleWithSameKeysToRecord qs_stringify.

End Reference.

(** ** Auxiliary definitions and the requests of the examples *)

Definition noAuth : HoppRESTAuth := mkAuth false AuthNone.

(** Basic authentication with user [u] and password [p]. *)
Definition basicRequest : HoppRESTRequest :=
  mkRequest "https://example.test" [] [] []
    (mkAuth true (AuthBasic "u" "p")) BodyNone.

(** The same, with a declared and inactive [authorization] header. *)
Definition basicRequestWithInactiveHeader : HoppRESTRequest :=
  mkRequest "https://example.test" [KV.mk false "AUTHORIZATION" "mine"] [] []
    (mkAuth true (AuthBasic "u" "p")) BodyNone.

(** A JSON body with a declared and inactive [Content-Type] header. *)
Definition jsonRequestWithInactiveHeader : HoppRESTRequest :=
  mkRequest "https://example.test" [KV.mk false "Content-Type" "text/plain"] [] []
    noAuth (BodyRaw "application/json" "{}").

(** The same, the declared header being active. *)
Definition jsonRequestWithActiveHeader : HoppRESTRequest :=
  mkRequest "https://example.test" [KV.mk true "Content-Type" "text/plain"] [] []
    noAuth (BodyRaw "application/json" "{}").

(** API-key authentication added to the query, the value a placeholder. *)
Definition tokenRequest : HoppRESTRequest :=
  mkRequest "https://example.test" [] [] []
    (mkAuth true (AuthApiKey "X" "{{token}}" "Query params")) BodyNone.

Definition tokenEnvironment : Environment :=
  mkEnvironment "tokens" [Var.mk "token" "abc"].

(** The specification's reading of the urlencoded path: the entries are taken in
    order; an entry that is inactive or has an empty key is skipped; an
    entry whose key or value fails the checked resolution is dropped; every
    other entry gives its resolved key and value. *)
Fixpoint spec_urlEncodedPairs {C : Collaborators} (envVariables : Variables)
    (entries : list RawKeyValueEntry) : list (string * string) :=
  match entries with
  | [] => []
  | e :: rest =>
      if KV.active e && negb (KV.key e =? "") then
        match parseTemplateStringE (KV.key e) envVariables,
              parseTemplateStringE (KV.value e) envVariables with
        | Right k, Right v => (k, v) :: spec_urlEncodedPairs envVariables rest
        | _, _ => spec_urlEncodedPairs envVariables rest
        end
      else spec_urlEncodedPairs envVariables rest
  end.

Definition urlEncodedRequest : HoppRESTRequest :=
  mkRequest "https://example.test" [] [] [] noAuth
    (BodyUrlEncoded "a={{v}}&b={{missing}}&c=3").

Definition malformedUrlEncodedRequest : HoppRESTRequest :=
  mkRequest "https://example.test" [] [] [] noAuth (BodyUrlEncoded "a=1&b").

(** The filter applied to the combined lists, and the resolution of one
    entry. *)
Definition keptEntry (x : KV.t) : bool := KV.active x && negb (KV.key x =? "").

Definition resolvedEntry {C : Collaborators} (scope : Variables) (x : KV.t) : KV.t :=
  KV.mk true (parseTemplateString (KV.key x) scope [])
    (parseTemplateString (KV.value x) scope []).

(** A declared header whose key is a placeholder bound to the empty string. *)
Definition blankKeyRequest : HoppRESTRequest :=
  mkRequest "https://example.test" [KV.mk true "{{blank}}" "v"] [] [] noAuth BodyNone.

Definition blankEnvironment : Environment :=
  mkEnvironment "blank" [Var.mk "blank" ""].





Definition isText (x : FormDataKeyValue) : bool := negb (FD.isFile x).

Definition keptFormEntry (x : FormDataKeyValue) : bool :=
  negb (FD.key x =? "") && FD.active x.

(** Two file entries, in this order. *)
Definition fileOne : FormDataKeyValue := FD.mk "f1" true (FileValue [BlobRef 1]).
Definition fileTwo : FormDataKeyValue := FD.mk "f2" true (FileValue [BlobRef 2]).

Definition twoFilesRequest : HoppRESTRequest :=
  mkRequest "https://example.test" [] [] [] noAuth (BodyMultipart [fileOne; fileTwo]).

(** A file entry declared before a text entry, with an inactive entry and an
    entry without key between them. *)
Definition fileThenTextRequest : HoppRESTRequest :=
  mkRequest "https://example.test" [] [] [] noAuth
    (BodyMultipart
       [ FD.mk "f" true (FileValue [BlobRef 1]);
         FD.mk "off" false (TextValue "0");
         FD.mk "" true (TextValue "0");
         FD.mk "a" true (TextValue "1") ]).

(** Bearer authentication whose token is a placeholder bound to another
    placeholder, with a declared header of the same value. *)
Definition bearerRequest : HoppRESTRequest :=
  mkRequest "https://example.test" [KV.mk true "X-Token" "{{t}}"] [] []
    (mkAuth true (AuthBearer "{{t}}")) BodyNone.

Definition nestedEnvironment : Environment :=
  mkEnvironment "nested" [Var.mk "t" "{{u}}"; Var.mk "u" "x"].

(** API-key authentication added to the headers. *)
Definition apiKeyHeaderRequest : HoppRESTRequest :=
  mkRequest "https://example.test" [] [] []
    (mkAuth true (AuthApiKey "X-Key" "{{token}}" "Headers")) BodyNone.

(** API-key authentication added to the query, the key a placeholder bound
    to the empty string, beside a declared parameter. *)
Definition blankApiKeyRequest : HoppRESTRequest :=
  mkRequest "https://example.test" [] [KV.mk true "q" "1"] []
    (mkAuth true (AuthApiKey "{{blank}}" "secret" "Query params")) BodyNone.

(** Inactive basic authentication with a JSON body. *)
Definition inactiveAuthRequest : HoppRESTRequest :=
  mkRequest "https://example.test" [] [] []
    (mkAuth false (AuthBasic "u" "p")) (BodyRaw "application/json" "{}").

(** The number of container entries a form entry expands into. *)
Definition expansionCount (x : FormDataKeyValue) : nat :=
  match FD.value x with
  | FileValue blobs => List.length blobs
  | TextValue _ => 1
  end.

Definition isEntryText (e : string * FormDataEntryValue) : bool :=
  match snd e with EntryText _ => true | EntryBlob _ => false end.

(** A multipart body with a file entry of two blobs, a file entry without
    blob and a text entry. *)
Definition blobsRequest : HoppRESTRequest :=
  mkRequest "https://example.test" [] [] [] noAuth
    (BodyMultipart
       [ FD.mk "f" true (FileValue [BlobRef 1; BlobRef 2]);
         FD.mk "none" true (FileValue []);
         FD.mk "a" true (TextValue "{{v}}") ]).

(** The request with another body. *)
Definition withBody (b : HoppRESTReqBody) (req : HoppRESTRequest) : HoppRESTRequest :=
  mkRequest (endpoint req) (headers req) (params req) (vars req) (auth req) b.

(** Basic authentication whose user name is the euro sign, U+20AC, of
    UTF-8 bytes 226, 130 and 172. *)
Definition euro : string := String "226" (String "130" (String "172" "")).

Definition euroRequest : HoppRESTRequest :=
  mkRequest "https://example.test" [] [] []
    (mkAuth true (AuthBasic euro "p")) (BodyRaw "application/json" "{}").




(** A store without global variables. *)
Definition emptyStore : Store unit := mkStore [] tt.

(** ** Lemmas on [find] *)

Section FindFacts.
Context {A : Type} (f : A -> bool).

Lemma find_none_iff (l : list A) :
  find f l = None <-> (forall x, In x l -> f x = false).
Proof.
  split.
  - intros Hnone x Hin. exact (find_none f l Hnone x Hin).
  - induction l as [|a l IH]; intros Hall; simpl; [reflexivity|].
    rewrite (Hall a (or_introl eq_refl)).
    apply IH. intros x Hin. apply Hall. now right.
Qed.

Lemma find_found (l : list A) (x : A) :
  In x l -> f x = true -> exists y, find f l = Some y.
Proof.
  intros Hin Hfx. destruct (find f l) as [y|] eqn:E; [now exists y|].
  rewrite (find_none f l E x Hin) in Hfx. discriminate.
Qed.
End FindFacts.

(** ** Computed headers *)

(** Case analysis on the header search of a guard. *)
Ltac destruct_find E :=
  match goal with
  | |- context [find ?f ?l] => destruct (find f l) eqn:E
  end.

Section ComputedHeaders.
Context {C : Collaborators}.

Lemma auth_headers_guard req envVars h :
  In h (headers req) -> toLowerCase (KV.key h) = "authorization" ->
  getComputedAuthHeaders req envVars = Returns [].
Proof.
  intros Hin Hkey. unfold getComputedAuthHeaders.
  destruct_find E; [reflexivity|]. exfalso.
  pose proof (find_none _ _ E h Hin) as Hf. simpl in Hf.
  apply String.eqb_neq in Hf. contradiction.
Qed.

Lemma auth_headers_declared req envVars :
  (exists h, In h (headers req) /\ toLowerCase (KV.key h) = "authorization") ->
  getComputedAuthHeaders req envVars = Returns [].
Proof. intros [h [Hin Hkey]]. exact (auth_headers_guard req envVars h Hin Hkey). Qed.

Lemma auth_headers_unguarded req :
  (forall h, In h (headers req) -> toLowerCase (KV.key h) <> "authorization") ->
  find (fun h => toLowerCase (KV.key h) =? "authorization") (headers req) = None.
Proof.
  intros Hno. apply find_none_iff. intros x Hin.
  apply String.eqb_neq. now apply Hno.
Qed.

Lemma body_headers_guard req h :
  In h (headers req) -> KV.active h = true ->
  toLowerCase (KV.key h) = "content-type" ->
  getComputedBodyHeaders req = [].
Proof.
  intros Hin Hact Hkey. unfold getComputedBodyHeaders.
  destruct_find E; [reflexivity|]. exfalso.
  pose proof (find_none _ _ E h Hin) as Hf. simpl in Hf.
  rewrite Hact in Hf. simpl in Hf.
  apply String.eqb_neq in Hf. contradiction.
Qed.

Lemma body_headers_unguarded req :
  (forall h, In h (headers req) -> KV.active h = true ->
             toLowerCase (KV.key h) <> "content-type") ->
  getComputedBodyHeaders req =
    match contentType (body req) with
    | None => []
    | Some ct => [KV.mk true "content-type" ct]
    end.
Proof.
  intros Hno. unfold getComputedBodyHeaders.
  replace (find _ (headers req)) with (@None HoppRESTHeader); [reflexivity|].
  symmetry. apply find_none_iff. intros x Hin.
  destruct (KV.active x) eqn:Hact; [|reflexivity]. simpl.
  apply String.eqb_neq. now apply Hno.
Qed.

(** The computed headers are those of the authentication followed by those
    of the body, unless the former throw. *)
Lemma computed_headers_cases req envVars :
  getComputedHeaders req envVars =
    match getComputedAuthHeaders req envVars with
    | Returns a =>
        Returns (map (mkComputedHeader SourceAuth) a
                 ++ map (mkComputedHeader SourceBody) (getComputedBodyHeaders req))%list
    | Throws e => Throws e
    end.
Proof.
  unfold getComputedHeaders.
  now destruct (getComputedAuthHeaders req envVars).
Qed.

Lemma in_tagged_headers (a b : list HoppRESTHeader) (ch : ComputedHeader) :
  In ch (map (mkComputedHeader SourceAuth) a
         ++ map (mkComputedHeader SourceBody) b) <->
  (ch_source ch = SourceAuth /\ In (header ch) a)
  \/ (ch_source ch = SourceBody /\ In (header ch) b).
Proof.
  rewrite in_app_iff, !in_map_iff. split.
  - intros [[h [<- Hin]]|[h [<- Hin]]]; [left|right]; now split.
  - destruct ch as [src h]; simpl.
    intros [[-> Hin]|[-> Hin]]; [left|right]; now exists h.
Qed.

(** What the auth-derived headers are when they are returned: one header at
    most, flagged active. *)
Lemma auth_headers_returned req envVars a :
  getComputedAuthHeaders req envVars = Returns a ->
  (List.length a <= 1)%nat /\ Forall (fun h => KV.active h = true) a.
Proof.
  unfold getComputedAuthHeaders. destruct_find E.
  { intros [= <-]. split; [simpl; lia|constructor]. }
  destruct (negb (authActive (auth req))).
  { intros [= <-]. split; [simpl; lia|constructor]. }
  destruct (authInfo (auth req)) as [|u p|tok|tok|key value addTo].
  - intros [= <-]. split; [simpl; lia|constructor].
  - simpl. destruct (btoa _); simpl; [|discriminate].
    intros [= <-]. split; [simpl; lia|repeat constructor].
  - intros [= <-]. split; [simpl; lia|repeat constructor].
  - intros [= <-]. split; [simpl; lia|repeat constructor].
  - destruct (addTo =? "Headers"); intros [= <-];
      (split; [simpl; lia|repeat constructor]).
Qed.

(** The basic branch: the header when [btoa] returns, its exception when it
    throws. *)
Lemma basic_auth_headers req envVars username password :
  authActive (auth req) = true ->
  authInfo (auth req) = AuthBasic username password ->
  (forall h, In h (headers req) -> toLowerCase (KV.key h) <> "authorization") ->
  getComputedAuthHeaders req envVars =
    match btoa (parseTemplateString username envVars [] ++ ":"
                ++ parseTemplateString password envVars []) with
    | Returns encoded =>
        Returns [ KV.mk true "Authorization" ("Basic " ++ encoded) ]
    | Throws e => Throws e
    end.
Proof.
  intros Hact Hinfo Hno. unfold getComputedAuthHeaders.
  rewrite (auth_headers_unguarded req Hno), Hact, Hinfo. simpl.
  now destruct (btoa _).
Qed.

(** The auth-derived headers throw in the basic branch only. *)
Lemma auth_headers_throw req envVars e :
  getComputedAuthHeaders req envVars = Throws e ->
  authActive (auth req) = true
  /\ exists username password,
       authInfo (auth req) = AuthBasic username password
       /\ btoa (parseTemplateString username envVars [] ++ ":"
                ++ parseTemplateString password envVars []) = Throws e.
Proof.
  unfold getComputedAuthHeaders. destruct_find E; [discriminate|].
  destruct (authActive (auth req)); simpl; [|discriminate].
  destruct (authInfo (auth req)) as [|u p|tok|tok|key value addTo];
    try discriminate.
  - simpl. destruct (btoa _) eqn:Hb; simpl; [discriminate|].
    intros [= <-]. split; [reflexivity|]. now exists u, p.
  - destruct (addTo =? "Headers"); discriminate.
Qed.

End ComputedHeaders.

(** C4: a declared header whose key is [authorization] up to case, active or
    not, makes the computed-header deriver synthesise no auth-derived
    header, whatever the authentication configuration is: the deriver
    returns, and none of the computed headers stems from the
    authentication. *)
Theorem C4_declared_authorization_suppresses_auth_headers :
  forall (C : Collaborators) (req : HoppRESTRequest) (envVars : Variables),
    (exists h, In h (headers req) /\ toLowerCase (KV.key h) = "authorization") ->
    getComputedAuthHeaders req envVars = Returns []
    /\ exists chs,
         getComputedHeaders req envVars = Returns chs
         /\ forall ch, In ch chs -> ch_source ch <> SourceAuth.
Proof.
  intros C req envVars Hdecl.
  pose proof (auth_headers_declared req envVars Hdecl) as Hnil.
  split; [exact Hnil|].
  eexists. split.
  - rewrite computed_headers_cases, Hnil. reflexivity.
  - intros ch Hch Hsrc. apply in_tagged_headers in Hch.
    destruct Hch as [[_ []]|[Hbody _]].
    rewrite Hsrc in Hbody. discriminate.
Qed.

Lemma C4_witness :
  getComputedAuthHeaders (C := Reference.collaborators)
    basicRequestWithInactiveHeader [] = Returns []
  /\ exists chs,
       getComputedHeaders (C := Reference.collaborators)
         basicRequestWithInactiveHeader [] = Returns chs
       /\ forall ch, In ch chs -> ch_source ch <> SourceAuth.
Proof.
  apply (C4_declared_authorization_suppresses_auth_headers
           Reference.collaborators basicRequestWithInactiveHeader []).
  exists (KV.mk false "AUTHORIZATION" "mine"). split.
  - simpl. left. reflexivity.
  - reflexivity.
Defined.

(** C7: with active basic authentication and no declared [authorization]
    header the deriver calls [btoa] on the resolved user name, a colon and
    the resolved password: when [btoa] returns, the auth-derived headers are
    the single header [Authorization] valued ["Basic "] followed by the
    encoding, and when [btoa] throws, the deriver and the whole assembly
    throw with it and no header is synthesised.  With [u] and [p] the value
    is [Basic dTpw]; with the euro sign as user name, a character above
    U+00FF, the call ends in an [InvalidCharacterError]. *)
Theorem C7_basic_auth_header_or_exception :
  (forall (C : Collaborators) (req : HoppRESTRequest) (envVars : Variables)
          (username password : string),
      authActive (auth req) = true ->
      authInfo (auth req) = AuthBasic username password ->
      (forall h, In h (headers req) -> toLowerCase (KV.key h) <> "authorization") ->
      getComputedAuthHeaders req envVars =
        match btoa (parseTemplateString username envVars [] ++ ":"
                    ++ parseTemplateString password envVars []) with
        | Returns encoded =>
            Returns [ KV.mk true "Authorization" ("Basic " ++ encoded) ]
        | Throws e => Throws e
        end)
  /\ getComputedAuthHeaders (C := Reference.collaborators) basicRequest [] =
       Returns [ KV.mk true "Authorization" "Basic dTpw" ]
  /\ Reference.btoa (euro ++ ":p") = Throws "InvalidCharacterError"
  /\ getComputedAuthHeaders (C := Reference.collaborators) euroRequest [] =
       Throws "InvalidCharacterError"
  /\ getComputedHeaders (C := Reference.collaborators) euroRequest [] =
       Throws "InvalidCharacterError"
  /\ getEffectiveRESTRequest (C := Reference.collaborators)
       euroRequest tokenEnvironment emptyStore =
     (Throws "InvalidCharacterError", emptyStore).
Proof.
  split.
  { intros C req envVars username password Hact Hinfo Hno.
    exact (basic_auth_headers req envVars username password Hact Hinfo Hno). }
  repeat split.
Qed.

(** The body-derived headers: none when an active [content-type] header is
    declared, otherwise the declared content type, if any. *)
Lemma body_headers_cases (req : HoppRESTRequest) :
  ((exists h, In h (headers req) /\ KV.active h = true
              /\ toLowerCase (KV.key h) = "content-type")
   /\ getComputedBodyHeaders req = [])
  \/ ((forall h, In h (headers req) -> KV.active h = true ->
                 toLowerCase (KV.key h) <> "content-type")
      /\ getComputedBodyHeaders req =
           match contentType (body req) with
           | None => []
           | Some ct => [KV.mk true "content-type" ct]
           end).
Proof.
  destruct (find (fun h => KV.active h && (toLowerCase (KV.key h) =? "content-type"))
                 (headers req)) as [y|] eqn:E.
  - left. apply find_some in E. destruct E as [Hin Hy].
    apply andb_true_iff in Hy. destruct Hy as [Hact Hkey].
    apply String.eqb_eq in Hkey. split.
    + exists y. auto.
    + exact (body_headers_guard req y Hin Hact Hkey).
  - right.
    assert (Hno : forall h, In h (headers req) -> KV.active h = true ->
                            toLowerCase (KV.key h) <> "content-type").
    { intros h Hin Hact. pose proof (find_none _ _ E h Hin) as Hf.
      simpl in Hf. rewrite Hact in Hf. now apply String.eqb_neq. }
    split; [exact Hno|]. exact (body_headers_unguarded req Hno).
Qed.

(** C8: a body-derived [content-type] header is synthesised exactly when no
    active header is named [content-type] up to case and the content type of
    the body is not null; its value is the declared content type, copied as
    it is.  This holds of the body deriver and of the computed headers
    whenever they are returned; they are not returned only when the
    auth-derived headers throw. *)
Theorem C8_body_content_type_header :
  forall (C : Collaborators) (req : HoppRESTRequest) (envVars : Variables),
    ((exists h, In h (getComputedBodyHeaders req))
     <-> ((forall h, In h (headers req) -> KV.active h = true ->
                     toLowerCase (KV.key h) <> "content-type")
          /\ contentType (body req) <> None))
    /\ (forall h,
          In h (getComputedBodyHeaders req) ->
          exists ct, contentType (body req) = Some ct
                     /\ h = KV.mk true "content-type" ct)
    /\ match getComputedHeaders req envVars with
       | Returns chs =>
           ((exists ch, In ch chs /\ ch_source ch = SourceBody)
            <-> ((forall h, In h (headers req) -> KV.active h = true ->
                            toLowerCase (KV.key h) <> "content-type")
                 /\ contentType (body req) <> None))
           /\ (forall ch,
                 In ch chs -> ch_source ch = SourceBody ->
                 exists ct,
                   contentType (body req) = Some ct
                   /\ ch = mkComputedHeader SourceBody
                             (KV.mk true "content-type" ct))
       | Throws e => getComputedAuthHeaders req envVars = Throws e
       end.
Proof.
  intros C req envVars.
  assert (Hiff : (exists h, In h (getComputedBodyHeaders req))
     <-> ((forall h, In h (headers req) -> KV.active h = true ->
                     toLowerCase (KV.key h) <> "content-type")
          /\ contentType (body req) <> None)).
  { destruct (body_headers_cases req) as [[[h [Hin [Hact Hkey]]] Hnil]|[Hno Heq]].
    - rewrite Hnil. split.
      + intros [x []].
      + intros [Hno _]. exfalso. exact (Hno h Hin Hact Hkey).
    - rewrite Heq. split.
      + intros [x Hx]. split; [exact Hno|].
        destruct (contentType (body req)); [discriminate|destruct Hx].
      + intros [_ Hct]. destruct (contentType (body req)) as [ct|];
          [|congruence].
        eexists. now left. }
  assert (Hval : forall h,
          In h (getComputedBodyHeaders req) ->
          exists ct, contentType (body req) = Some ct
                     /\ h = KV.mk true "content-type" ct).
  { intros h Hh.
    destruct (body_headers_cases req) as [[_ Hnil]|[_ Heq]].
    - rewrite Hnil in Hh. destruct Hh.
    - rewrite Heq in Hh. destruct (contentType (body req)) as [ct|];
        [|destruct Hh].
      destruct Hh as [<-|[]]. now exists ct. }
  split; [exact Hiff|]. split; [exact Hval|].
  rewrite computed_headers_cases.
  destruct (getComputedAuthHeaders req envVars) as [a|e]; [|reflexivity].
  assert (Hbody : forall ch,
             In ch (map (mkComputedHeader SourceAuth) a
                    ++ map (mkComputedHeader SourceBody)
                         (getComputedBodyHeaders req)) ->
             ch_source ch = SourceBody ->
             In (header ch) (getComputedBodyHeaders req)).
  { intros ch Hin Hsrc. apply in_tagged_headers in Hin.
    destruct Hin as [[Hauth _]|[_ Hin]]; [congruence|exact Hin]. }
  split.
  - rewrite <- Hiff. split.
    + intros [ch [Hch Hsrc]]. exists (header ch). exact (Hbody ch Hch Hsrc).
    + intros [h Hh]. exists (mkComputedHeader SourceBody h). split; [|reflexivity].
      apply in_tagged_headers. right. now split.
  - intros ch Hch Hsrc. destruct (Hval _ (Hbody ch Hch Hsrc)) as [ct [Hct Hh]].
    exists ct. split; [exact Hct|].
    destruct ch as [src hd]. simpl in *. congruence.
Qed.

(** C10: the two guards treat the active flag differently.  A declared
    [authorization] header suppresses the auth-derived headers whatever its
    flag is; a declared [content-type] header suppresses the body-derived
    header when it is active, and has no effect when every such header is
    inactive. *)
Theorem C10_guards_differ_on_active_flag :
  forall (C : Collaborators) (req : HoppRESTRequest) (envVars : Variables),
    (forall h, In h (headers req) -> toLowerCase (KV.key h) = "authorization" ->
               getComputedAuthHeaders req envVars = Returns [])
    /\ (forall h, In h (headers req) -> toLowerCase (KV.key h) = "content-type" ->
                  KV.active h = true -> getComputedBodyHeaders req = [])
    /\ ((forall h, In h (headers req) -> toLowerCase (KV.key h) = "content-type" ->
                   KV.active h = false) ->
        forall ct, contentType (body req) = Some ct ->
                   getComputedBodyHeaders req = [KV.mk true "content-type" ct]).
Proof.
  intros C req envVars. repeat split.
  - intros h Hin Hkey. exact (auth_headers_guard req envVars h Hin Hkey).
  - intros h Hin Hkey Hact. exact (body_headers_guard req h Hin Hact Hkey).
  - intros Hinactive ct Hct. rewrite body_headers_unguarded, Hct; [reflexivity|].
    intros h Hin Hact Hkey. rewrite (Hinactive h Hin Hkey) in Hact. discriminate.
Qed.

(** The inactive [AUTHORIZATION] header suppresses the header of the active
    basic authentication; the inactive [Content-Type] header leaves the
    body-derived header in place and the active one removes it. *)
Lemma C10_witness :
  getComputedAuthHeaders (C := Reference.collaborators)
    basicRequestWithInactiveHeader [] = Returns []
  /\ getComputedBodyHeaders jsonRequestWithActiveHeader = []
  /\ getComputedBodyHeaders jsonRequestWithInactiveHeader =
       [KV.mk true "content-type" "application/json"].
Proof.
  split; [|split].
  - apply (proj1 (C10_guards_differ_on_active_flag Reference.collaborators
                    basicRequestWithInactiveHeader [])
             (KV.mk false "AUTHORIZATION" "mine")).
    + simpl. left. reflexivity.
    + reflexivity.
  - apply (proj1 (proj2 (C10_guards_differ_on_active_flag Reference.collaborators
                           jsonRequestWithActiveHeader []))
             (KV.mk true "Content-Type" "text/plain")).
    + simpl. left. reflexivity.
    + reflexivity.
    + reflexivity.
  - apply (proj2 (proj2 (C10_guards_differ_on_active_flag Reference.collaborators
                           jsonRequestWithInactiveHeader []))).
    + intros h [<-|[]] _. reflexivity.
    + reflexivity.
Defined.

(** ** Computed parameters *)

(** C6: the computed-parameter deriver returns exactly one parameter, the
    resolved key and value of the authentication, when the authentication is
    active, of type api-key and added to the query parameters, and the empty
    list in every other case; with key [X], value [{{token}}] and the
    binding [token=abc] the assembled parameters are the single entry
    [X=abc] and no header is computed. *)
Theorem C6_computed_params :
  (forall (C : Collaborators) (req : HoppRESTRequest) (envVars : Variables),
      (forall key value,
          authActive (auth req) = true ->
          authInfo (auth req) = AuthApiKey key value "Query params" ->
          getComputedParams req envVars =
            [ mkComputedParam SourceAuth
                (KV.mk true (parseTemplateString key envVars [])
                   (parseTemplateString value envVars [])) ])
      /\ (~ (authActive (auth req) = true
             /\ exists key value,
                 authInfo (auth req) = AuthApiKey key value "Query params") ->
          getComputedParams req envVars = []))
  /\ (exists eff,
        getEffectiveRESTRequest (C := Reference.collaborators)
          tokenRequest tokenEnvironment emptyStore = (Returns eff, emptyStore)
        /\ effectiveFinalParams eff = [KV.mk true "X" "abc"])
  /\ getComputedHeaders (C := Reference.collaborators) tokenRequest
       (variables tokenEnvironment) = Returns [].
Proof.
  split; [|split; [eexists; split; reflexivity|reflexivity]].
  intros C req envVars. split.
  - intros key value Hact Hinfo. unfold getComputedParams.
    rewrite Hact, Hinfo. reflexivity.
  - intros Hnot. unfold getComputedParams.
    destruct (authActive (auth req)) eqn:Hact; [|reflexivity]. simpl.
    destruct (authInfo (auth req)) as [| | | |key value addTo] eqn:Hinfo;
      try reflexivity.
    destruct (addTo =? "Query params") eqn:Hadd; [|reflexivity].
    apply String.eqb_eq in Hadd. subst addTo.
    exfalso. apply Hnot. split; [reflexivity|]. now exists key, value.
Qed.

Lemma C6_witness :
  getComputedParams (C := Reference.collaborators) tokenRequest
    (variables tokenEnvironment) =
    [ mkComputedParam SourceAuth (KV.mk true "X" "abc") ]
  /\ getComputedParams (C := Reference.collaborators) basicRequest [] = [].
Proof.
  split.
  - apply (proj1 (proj1 C6_computed_params Reference.collaborators tokenRequest
                    (variables tokenEnvironment)) "X" "{{token}}");
      reflexivity.
  - apply (proj2 (proj1 C6_computed_params Reference.collaborators basicRequest [])).
    intros [_ [key [value Hinfo]]]. discriminate Hinfo.
Defined.

(** ** The urlencoded body *)

Lemma urlEncodedPairs_refines {C : Collaborators} (envVariables : Variables)
    (entries : list RawKeyValueEntry) :
  urlEncodedPairs envVariables entries = spec_urlEncodedPairs envVariables entries.
Proof.
  unfold urlEncodedPairs.
  induction entries as [|e rest IH]; [reflexivity|].
  simpl. destruct (KV.active e && negb (KV.key e =? "")); [|exact IH].
  simpl. rewrite IH.
  destruct (parseTemplateStringE (KV.key e) envVariables);
    destruct (parseTemplateStringE (KV.value e) envVariables); reflexivity.
Qed.

(** C5: for a urlencoded body, a failure of the raw entry parser makes the
    materialised body absent; when the parser succeeds, the serialiser
    receives, in order, the resolved key and value of every active entry
    with a non-empty key whose key and value both pass the checked
    resolution, and no other entry: a failing entry is dropped and the rest
    is kept. *)
Theorem C5_urlencoded_body :
  forall (C : Collaborators) (req : HoppRESTRequest) (envVariables : Variables)
         (raw : string),
    body req = BodyUrlEncoded raw ->
    (forall e, parseRawKeyValueEntriesE raw = Left e ->
               getFinalBodyFromRequest req envVariables = FinalNull)
    /\ (forall entries,
          parseRawKeyValueEntriesE raw = Right entries ->
          getFinalBodyFromRequest req envVariables =
            FinalString
              (qs_stringify
                 (tupleWithSameKeysToRecord
                    (spec_urlEncodedPairs envVariables entries)))).
Proof.
  intros C req envVariables raw Hbody. unfold getFinalBodyFromRequest.
  rewrite Hbody. split.
  - intros e He. now rewrite He.
  - intros entries He. rewrite He. now rewrite urlEncodedPairs_refines.
Qed.

(** The entry [b], whose value names an unbound variable, is dropped and the
    entries [a] and [c] are kept; the malformed text gives no body. *)
Lemma C5_witness :
  getFinalBodyFromRequest (C := Reference.collaborators)
    malformedUrlEncodedRequest [Var.mk "v" "1"] = FinalNull
  /\ getFinalBodyFromRequest (C := Reference.collaborators)
       urlEncodedRequest [Var.mk "v" "1"] = FinalString "a=1&c=3".
Proof.
  split.
  - apply (proj1 (C5_urlencoded_body Reference.collaborators
                    malformedUrlEncodedRequest [Var.mk "v" "1"] "a=1&b" eq_refl)
             "MALFORMED_ENTRY: b").
    reflexivity.
  - apply (proj2 (C5_urlencoded_body Reference.collaborators
                    urlEncodedRequest [Var.mk "v" "1"]
                    "a={{v}}&b={{missing}}&c=3" eq_refl)
             [KV.mk true "a" "{{v}}"; KV.mk true "b" "{{missing}}";
              KV.mk true "c" "3"]).
    reflexivity.
Defined.

(** ** The final header and parameter lists *)

Lemma resolveEntries_spec {C : Collaborators} (scope : Variables) (l : list KV.t) :
  resolveEntries scope l = map (resolvedEntry scope) (filter keptEntry l).
Proof. reflexivity. Qed.

Lemma resolveEntries_active {C : Collaborators} (scope : Variables) (l : list KV.t) :
  Forall (fun y => KV.active y = true) (resolveEntries scope l).
Proof.
  unfold resolveEntries. apply Forall_forall. intros y Hin.
  apply in_map_iff in Hin. destruct Hin as [x [<- _]]. reflexivity.
Qed.

Lemma resolveEntries_in {C : Collaborators} (scope : Variables) (l : list KV.t)
    (y : KV.t) :
  In y (resolveEntries scope l) <->
  exists x, In x l /\ KV.active x = true /\ KV.key x <> ""
            /\ y = resolvedEntry scope x.
Proof.
  rewrite resolveEntries_spec, in_map_iff. split.
  - intros [x [<- Hin]]. apply filter_In in Hin. destruct Hin as [Hin Hk].
    unfold keptEntry in Hk. apply andb_true_iff in Hk. destruct Hk as [Ha Hk].
    apply negb_true_iff, String.eqb_neq in Hk. now exists x.
  - intros [x [Hin [Ha [Hk ->]]]]. exists x. split; [reflexivity|].
    apply filter_In. split; [exact Hin|].
    unfold keptEntry. rewrite Ha. simpl.
    now apply negb_true_iff, String.eqb_neq.
Qed.

Lemma computed_headers_active {C : Collaborators} req envVars chs :
  getComputedHeaders req envVars = Returns chs ->
  Forall (fun ch => KV.active (header ch) = true) chs.
Proof.
  rewrite computed_headers_cases.
  destruct (getComputedAuthHeaders req envVars) as [a|e] eqn:Ha; [|discriminate].
  intros [= <-]. apply Forall_forall. intros ch Hin.
  apply in_tagged_headers in Hin. destruct Hin as [[_ Hin]|[_ Hin]].
  - destruct (auth_headers_returned req envVars a Ha) as [_ Hall].
    rewrite Forall_forall in Hall. now apply Hall.
  - destruct (body_headers_cases req) as [[_ Hnil]|[_ Heq]].
    + rewrite Hnil in Hin. destruct Hin.
    + rewrite Heq in Hin. destruct (contentType (body req)); [|destruct Hin].
      destruct Hin as [<-|[]]. reflexivity.
Qed.

Lemma computed_params_active {C : Collaborators} req envVars :
  Forall (fun cp => KV.active (param cp) = true) (getComputedParams req envVars).
Proof.
  unfold getComputedParams.
  destruct (negb (authActive (auth req))); [constructor|].
  destruct (authInfo (auth req)) as [| | | |key value addTo]; try constructor.
  destruct (negb (addTo =? "Query params")); repeat constructor.
Qed.

(** The call: it gives the store back, and returns the effective request
    built from the computed headers unless these throw. *)
Lemma effective_request_cases {C : Collaborators} {R : Type}
    (req : HoppRESTRequest) (env : Environment) (s : Store R) :
  getEffectiveRESTRequest req env s =
    (match getComputedHeaders req (variables env ++ getGlobalVariables s) with
     | Returns computed =>
         Returns
           (mkEffective req
              (parseTemplateString (endpoint req)
                 (variables env ++ getGlobalVariables s) (vars req))
              (resolveEntries (variables env ++ getGlobalVariables s)
                 (map header computed ++ headers req))
              (resolveEntries (variables env ++ getGlobalVariables s)
                 (map param
                    (getComputedParams req (variables env ++ getGlobalVariables s))
                  ++ params req))
              (getFinalBodyFromRequest req (variables env ++ getGlobalVariables s))
              (vars req))
     | Throws e => Throws e
     end, s).
Proof.
  unfold getEffectiveRESTRequest. cbv zeta.
  now destruct (getComputedHeaders req (variables env ++ getGlobalVariables s)).
Qed.

(** C1, as the code has it: unless the computed headers throw, and the call
    with them, the final header and parameter lists are the resolutions, in
    order, of the computed entries followed by the declared ones, restricted
    to the entries that are active and whose key, before resolution, is not
    empty; every final entry is flagged active and every computed entry is
    active.  The key of a final entry is the resolution of a non-empty
    key. *)
Theorem C1_final_entries_filtered_before_resolution :
  forall (C : Collaborators) (R : Type) (s : Store R) (req : HoppRESTRequest)
         (env : Environment),
    let scope := (variables env ++ getGlobalVariables s)%list in
    match getComputedHeaders req scope with
    | Throws e => getEffectiveRESTRequest req env s = (Throws e, s)
    | Returns computed =>
        exists eff,
          getEffectiveRESTRequest req env s = (Returns eff, s)
          /\ effectiveFinalHeaders eff =
               map (resolvedEntry scope)
                 (filter keptEntry (map header computed ++ headers req))
          /\ effectiveFinalParams eff =
               map (resolvedEntry scope)
                 (filter keptEntry
                    (map param (getComputedParams req scope) ++ params req))
          /\ (forall y, In y (effectiveFinalHeaders eff) ->
                KV.active y = true
                /\ exists x,
                     In x (map header computed ++ headers req)
                     /\ KV.active x = true /\ KV.key x <> ""
                     /\ KV.key y = parseTemplateString (KV.key x) scope [])
          /\ (forall y, In y (effectiveFinalParams eff) ->
                KV.active y = true
                /\ exists x,
                     In x (map param (getComputedParams req scope) ++ params req)
                     /\ KV.active x = true /\ KV.key x <> ""
                     /\ KV.key y = parseTemplateString (KV.key x) scope [])
          /\ Forall (fun ch => KV.active (header ch) = true) computed
          /\ Forall (fun cp => KV.active (param cp) = true)
               (getComputedParams req scope)
    end.
Proof.
  intros C R s req env scope.
  assert (Hin : forall l y, In y (resolveEntries scope l) ->
            KV.active y = true
            /\ exists x, In x l /\ KV.active x = true /\ KV.key x <> ""
                         /\ KV.key y = parseTemplateString (KV.key x) scope []).
  { intros l y Hy. apply resolveEntries_in in Hy.
    destruct Hy as [x [Hx [Ha [Hk ->]]]]. split; [reflexivity|].
    exists x. repeat split; assumption. }
  rewrite effective_request_cases. fold scope.
  destruct (getComputedHeaders req scope) as [computed|e] eqn:Hc; [|reflexivity].
  eexists. split; [reflexivity|]. simpl.
  split; [reflexivity|]. split; [reflexivity|].
  split; [intros y Hy; exact (Hin _ y Hy)|].
  split; [intros y Hy; exact (Hin _ y Hy)|].
  split; [exact (computed_headers_active req scope computed Hc)
         |apply computed_params_active].
Qed.

(** The declared key [{{blank}}] is not empty and passes the filter; it
    resolves to the empty string, and the final list holds an entry with an
    empty key. *)
Lemma C1_counterexample :
  getEffectiveRESTRequest (C := Reference.collaborators)
    blankKeyRequest blankEnvironment emptyStore =
  (Returns
     (mkEffective blankKeyRequest "https://example.test"
        [KV.mk true "" "v"] [] FinalNull []),
   emptyStore)
  /\ ~ Forall (fun y => KV.key y <> "") [KV.mk true "" "v"].
Proof.
  split; [reflexivity|].
  intros H. apply Forall_inv in H. apply H. reflexivity.
Qed.

(** ** Determinism *)



(** Membership in the result of [filterMap]. *)
Lemma in_filterMap {A B : Type} (f : A -> option B) (l : list A) (y : B) :
  In y (filterMap f l) <-> exists x, In x l /\ f x = Some y.
Proof.
  induction l as [|a l IH]; simpl.
  - split; [intros []|intros [x [[] _]]].
  - destruct (f a) as [b|] eqn:Hfa; simpl; rewrite IH; split.
    + intros [<-|[x [Hin Hx]]]; [now exists a; auto|exists x; auto].
    + intros [x [[<-|Hin] Hx]]; [left; congruence|right; now exists x].
    + intros [x [Hin Hx]]. exists x; auto.
    + intros [x [[<-|Hin] Hx]]; [congruence|now exists x].
Qed.

(** ** Variable scopes *)



Section Scan.
Import Reference.






End Scan.



(** ** The multipart body *)

Section FilesDown.

Lemma compare_file_first (a b : FormDataKeyValue) :
  FD.isFile a = true -> filesDownCompare a b = 1%Z.
Proof. intros Ha. unfold filesDownCompare. now rewrite Ha. Qed.

Lemma compare_text_first (a b : FormDataKeyValue) :
  FD.isFile a = false ->
  filesDownCompare a b = if FD.isFile b then (-1)%Z else 0%Z.
Proof. intros Ha. unfold filesDownCompare. now rewrite Ha. Qed.

Lemma tied_text (x y : FormDataKeyValue) :
  FD.isFile x = false -> tied filesDownCompare x y = isText y.
Proof.
  intros Hx. unfold tied, isText. rewrite (compare_text_first x y Hx).
  unfold filesDownCompare. rewrite Hx. now destruct (FD.isFile y).
Qed.

Lemma tied_file (x y : FormDataKeyValue) :
  FD.isFile x = true -> tied filesDownCompare x y = false.
Proof.
  intros Hx. unfold tied. now rewrite (compare_file_first x y Hx).
Qed.

Lemma filter_none {A : Type} (f : A -> bool) (l : list A) :
  (forall x, In x l -> f x = false) -> filter f l = [].
Proof.
  induction l as [|a l IH]; intros Hall; simpl; [reflexivity|].
  rewrite (Hall a (or_introl eq_refl)). apply IH.
  intros x Hin. apply Hall. now right.
Qed.

Lemma filter_all {A : Type} (f : A -> bool) (l : list A) :
  (forall x, In x l -> f x = true) -> filter f l = l.
Proof.
  induction l as [|a l IH]; intros Hall; simpl; [reflexivity|].
  rewrite (Hall a (or_introl eq_refl)). f_equal. apply IH.
  intros x Hin. apply Hall. now right.
Qed.

Lemma Permutation_filter {A : Type} (f : A -> bool) (l l' : list A) :
  Permutation l l' -> Permutation (filter f l) (filter f l').
Proof.
  induction 1 as [|x l l' _ IH|x y l|l l' l'' _ IH1 _ IH2]; simpl.
  - constructor.
  - destruct (f x); [now constructor|exact IH].
  - destruct (f x), (f y); try reflexivity. constructor.
  - now transitivity (filter f l').
Qed.

Lemma Permutation_text_file (l : list FormDataKeyValue) :
  Permutation l (filter isText l ++ filter FD.isFile l).
Proof.
  induction l as [|a l IH]; simpl; [constructor|].
  unfold isText at 1. destruct (FD.isFile a); simpl.
  - now apply Permutation_cons_app.
  - now constructor.
Qed.

(** In a list of text entries followed by file entries no file entry
    stands before a text entry. *)
Lemma no_file_before_text (ts fs l1 l2 l3 : list FormDataKeyValue) (x y : FormDataKeyValue) :
  (forall t, In t ts -> FD.isFile t = false) ->
  (forall f, In f fs -> FD.isFile f = true) ->
  (ts ++ fs = l1 ++ x :: l2 ++ y :: l3)%list ->
  FD.isFile x = true -> FD.isFile y = false -> False.
Proof.
  revert l1. induction ts as [|t ts IH]; intros l1 Hts Hfs Heq Hx Hy.
  - simpl in Heq.
    assert (Hin : In y fs).
    { rewrite Heq. apply in_or_app. right. right.
      apply in_or_app. right. now left. }
    rewrite (Hfs y Hin) in Hy. discriminate.
  - destruct l1 as [|a l1]; simpl in Heq; inversion Heq; subst.
    + rewrite (Hts x (or_introl eq_refl)) in Hx. discriminate.
    + apply (IH l1); auto. intros t' Ht'. apply Hts. now right.
Qed.

(** The text entries in their order, followed by any arrangement of the
    file entries, are a stable sorting for the comparator. *)
Lemma stable_sorting_of_partition (l fs : list FormDataKeyValue) :
  Permutation fs (filter FD.isFile l) ->
  StableSorting filesDownCompare l (filter isText l ++ fs).
Proof.
  intros Hperm.
  assert (Hfs : forall f, In f fs -> FD.isFile f = true).
  { intros f Hin. apply (Permutation_in _ Hperm) in Hin.
    now apply filter_In in Hin. }
  assert (Hts : forall t, In t (filter isText l) -> FD.isFile t = false).
  { intros t Hin. apply filter_In in Hin. destruct Hin as [_ Ht].
    now apply negb_true_iff in Ht. }
  constructor.
  - transitivity (filter isText l ++ filter FD.isFile l)%list.
    + apply Permutation_text_file.
    + apply Permutation_app_head. now symmetry.
  - intros l1 x l2 y l3 Heq [Hxy Hyx].
    destruct (FD.isFile x) eqn:Hx.
    + destruct (FD.isFile y) eqn:Hy.
      * rewrite (compare_file_first y x Hy) in Hyx. lia.
      * exact (no_file_before_text _ _ _ _ _ _ _ Hts Hfs Heq Hx Hy).
    + rewrite (compare_text_first x y Hx) in Hxy.
      destruct (FD.isFile y); lia.
  - intros x. rewrite filter_app. destruct (FD.isFile x) eqn:Hx.
    + rewrite !(filter_ext _ _ (fun y => tied_file x y Hx)).
      rewrite !filter_none; auto.
    + rewrite !(filter_ext _ _ (fun y => tied_text x y Hx)).
      rewrite (filter_all isText (filter isText l)).
      * rewrite (filter_none isText fs); [now rewrite app_nil_r|].
        intros f Hin. unfold isText. now rewrite (Hfs f Hin).
      * intros t Hin. now apply filter_In in Hin.
Qed.

(** The routine that asks for (later, earlier) keeps the file entries in
    their order; the routine that asks for (earlier, later) reverses
    them. *)
Lemma insertLaterEarlier_file (x : FormDataKeyValue) (ts fs : list FormDataKeyValue) :
  FD.isFile x = true ->
  (forall t, In t ts -> FD.isFile t = false) ->
  (forall f, In f fs -> FD.isFile f = true) ->
  Reference.insertLaterEarlier filesDownCompare x (ts ++ fs) = (ts ++ x :: fs)%list.
Proof.
  intros Hx Hts Hfs. induction ts as [|t ts IH]; simpl.
  - destruct fs as [|f fs]; [reflexivity|]. simpl.
    now rewrite (compare_file_first f x (Hfs f (or_introl eq_refl))).
  - rewrite (compare_text_first t x (Hts t (or_introl eq_refl))), Hx. simpl.
    f_equal. apply IH. intros t' Ht'. apply Hts. now right.
Qed.

Lemma insertLaterEarlier_text (x : FormDataKeyValue) (l : list FormDataKeyValue) :
  FD.isFile x = false ->
  Reference.insertLaterEarlier filesDownCompare x l = x :: l.
Proof.
  intros Hx. destruct l as [|y l]; [reflexivity|]. simpl.
  unfold filesDownCompare. rewrite Hx. now destruct (FD.isFile y).
Qed.

Lemma sortLaterEarlier_files_down (l : list FormDataKeyValue) :
  Reference.sortLaterEarlier _ filesDownCompare l =
    (filter isText l ++ filter FD.isFile l)%list.
Proof.
  unfold Reference.sortLaterEarlier.
  induction l as [|a l IH]; [reflexivity|].
  simpl. rewrite IH. unfold isText at 2. destruct (FD.isFile a) eqn:Ha; simpl.
  - apply insertLaterEarlier_file; auto.
    + intros t Hin. apply filter_In in Hin. now apply negb_true_iff.
    + intros f Hin. now apply filter_In in Hin.
  - now apply insertLaterEarlier_text.
Qed.

Lemma insertEarlierLater_file (x : FormDataKeyValue) (l : list FormDataKeyValue) :
  FD.isFile x = true ->
  Reference.insertEarlierLater filesDownCompare x l = (l ++ [x])%list.
Proof.
  intros Hx. induction l as [|y l IH]; [reflexivity|]. simpl.
  rewrite (compare_file_first x y Hx). simpl. now rewrite IH.
Qed.

Lemma insertEarlierLater_text (x : FormDataKeyValue) (l : list FormDataKeyValue) :
  FD.isFile x = false ->
  Reference.insertEarlierLater filesDownCompare x l = x :: l.
Proof.
  intros Hx. destruct l as [|y l]; [reflexivity|]. simpl.
  rewrite (compare_text_first x y Hx). now destruct (FD.isFile y).
Qed.

Lemma sortEarlierLater_files_down (l : list FormDataKeyValue) :
  Reference.sortEarlierLater _ filesDownCompare l =
    (filter isText l ++ rev (filter FD.isFile l))%list.
Proof.
  unfold Reference.sortEarlierLater.
  induction l as [|a l IH]; [reflexivity|].
  simpl. rewrite IH. unfold isText at 2. destruct (FD.isFile a) eqn:Ha; simpl.
  - rewrite (insertEarlierLater_file a _ Ha). now rewrite <- app_assoc.
  - now apply insertEarlierLater_text.
Qed.

(** What every stable sorting for the comparator guarantees: the text
    entries come first, in their original order, and the file entries
    follow in some arrangement. *)
Lemma stable_sorting_files_last (l l' : list FormDataKeyValue) :
  StableSorting filesDownCompare l l' ->
  l' = (filter isText l ++ filter FD.isFile l')%list
  /\ Permutation (filter FD.isFile l') (filter FD.isFile l).
Proof.
  intros [Hperm Hord Hstab]. split.
  - assert (Htext : filter isText l' = filter isText l).
    { destruct (filter isText l) as [|t ts] eqn:Et.
      - apply filter_none. intros y Hy.
        destruct (isText y) eqn:Ey; [|reflexivity].
        assert (Hin : In y (filter isText l)).
        { apply filter_In. split; [|exact Ey].
          apply (Permutation_in _ (Permutation_sym Hperm)). exact Hy. }
        rewrite Et in Hin. destruct Hin.
      - assert (Ht : FD.isFile t = false).
        { assert (Hin : In t (filter isText l)) by (rewrite Et; now left).
          apply filter_In in Hin. now apply negb_true_iff. }
        rewrite <- Et.
        rewrite <- !(filter_ext _ _ (fun y => tied_text t y Ht)).
        apply Hstab. }
    rewrite <- Htext. clear Htext Hstab Hperm.
    induction l' as [|a r IH]; [reflexivity|].
    assert (Hr : r = (filter isText r ++ filter FD.isFile r)%list).
    { apply IH. intros l1 x l2 y l3 Heq.
      apply (Hord (a :: l1) x l2 y l3). simpl. now rewrite Heq. }
    simpl. unfold isText at 1. destruct (FD.isFile a) eqn:Ha; simpl.
    + assert (Hfiles : forall y, In y r -> FD.isFile y = true).
      { intros y Hy. destruct (FD.isFile y) eqn:Ey; [reflexivity|]. exfalso.
        destruct (in_split _ _ Hy) as [l2 [l3 Hsplit]].
        apply (Hord [] a l2 y l3); [simpl; now rewrite Hsplit|].
        rewrite (compare_file_first a y Ha), (compare_text_first y a Ey), Ha.
        lia. }
      rewrite (filter_none isText r), (filter_all FD.isFile r); auto.
      intros y Hy. unfold isText. now rewrite (Hfiles y Hy).
    + f_equal. exact Hr.
  - apply Permutation_filter. now symmetry.
Qed.

End FilesDown.

(** The materialisation of a multipart body under a sort routine that
    returns a stable sorting: the entries without key and the inactive ones
    are dropped, the text entries come first in their original order and the
    file entries follow. *)
Lemma multipart_body_files_last {C : Collaborators} (req : HoppRESTRequest)
    (envVariables : Variables) (entries : list FormDataKeyValue) :
  body req = BodyMultipart entries ->
  let kept := filter keptFormEntry entries in
  let sorted := arraySort filesDownCompare kept in
  StableSorting filesDownCompare kept sorted ->
  getFinalBodyFromRequest req envVariables =
    FinalFormData (flat_map (splitBlobs envVariables) sorted)
  /\ sorted = (filter isText kept ++ filter FD.isFile sorted)%list
  /\ Permutation (filter FD.isFile sorted) (filter FD.isFile kept).
Proof.
  intros Hbody kept sorted Hsort. split.
  - unfold getFinalBodyFromRequest. now rewrite Hbody.
  - now apply stable_sorting_files_last.
Qed.

(** C2: the comparator answers 1 whenever its first argument is a file
    entry, also when the second is one, so it never reports two file entries
    as tied and orders them in both directions.  Both insertion sorts return
    a stable sorting for it on every list; on two file entries the one asking
    for (earlier, later) exchanges them and the one asking for
    (later, earlier) keeps them.  A file entry declared before a text entry
    is moved behind it by both. *)
Theorem C2_file_entries_order_left_to_the_sort_routine :
  (forall a b, FD.isFile a = true -> filesDownCompare a b = 1%Z)
  /\ (forall l, StableSorting filesDownCompare l
                  (Reference.sortEarlierLater _ filesDownCompare l))
  /\ (forall l, StableSorting filesDownCompare l
                  (Reference.sortLaterEarlier _ filesDownCompare l))
  /\ getFinalBodyFromRequest (C := Reference.collaboratorsEarlierLater)
       twoFilesRequest [] =
     FinalFormData [("f2", EntryBlob (BlobRef 2)); ("f1", EntryBlob (BlobRef 1))]
  /\ getFinalBodyFromRequest (C := Reference.collaborators)
       twoFilesRequest [] =
     FinalFormData [("f1", EntryBlob (BlobRef 1)); ("f2", EntryBlob (BlobRef 2))]
  /\ getFinalBodyFromRequest (C := Reference.collaboratorsEarlierLater)
       fileThenTextRequest [] =
     FinalFormData [("a", EntryText "1"); ("f", EntryBlob (BlobRef 1))]
  /\ getFinalBodyFromRequest (C := Reference.collaborators)
       fileThenTextRequest [] =
     FinalFormData [("a", EntryText "1"); ("f", EntryBlob (BlobRef 1))].
Proof.
  split; [exact compare_file_first|].
  split.
  { intros l. rewrite sortEarlierLater_files_down.
    apply stable_sorting_of_partition. symmetry. apply Permutation_rev. }
  split.
  { intros l. rewrite sortLaterEarlier_files_down.
    now apply stable_sorting_of_partition. }
  repeat split.
Qed.

(** ** Further properties of the computed headers and parameters *)

(** X1: with active bearer or OAuth 2 authentication and no declared
    [authorization] header, the auth-derived headers are the single header
    [Authorization] valued ["Bearer "] followed by the resolved token. *)
Theorem X1_bearer_header :
  forall (C : Collaborators) (req : HoppRESTRequest) (envVars : Variables)
         (tok : string),
    authActive (auth req) = true ->
    authInfo (auth req) = AuthBearer tok \/ authInfo (auth req) = AuthOAuth2 tok ->
    (forall h, In h (headers req) -> toLowerCase (KV.key h) <> "authorization") ->
    getComputedAuthHeaders req envVars =
      Returns
        [ KV.mk true "Authorization"
            ("Bearer " ++ parseTemplateString tok envVars []) ].
Proof.
  intros C req envVars tok Hact Hinfo Hno. unfold getComputedAuthHeaders.
  rewrite (auth_headers_unguarded req Hno), Hact.
  destruct Hinfo as [-> | ->]; reflexivity.
Qed.

Lemma X1_witness :
  getComputedAuthHeaders (C := Reference.collaborators) bearerRequest
    [Var.mk "t" "abc"] = Returns [ KV.mk true "Authorization" "Bearer abc" ].
Proof.
  apply (X1_bearer_header Reference.collaborators bearerRequest
           [Var.mk "t" "abc"] "{{t}}" eq_refl (or_introl eq_refl)).
  intros h [<-|[]]. discriminate.
Defined.

(** X2: for active API-key authentication the key goes to one place at most.
    The computed parameter depends on [addTo] alone, whatever headers are
    declared; the computed header needs [addTo] to be [Headers] and no
    declared [authorization] header; any other [addTo] gives neither. *)
Theorem X2_api_key_placement :
  forall (C : Collaborators) (req : HoppRESTRequest) (envVars : Variables)
         (key value addTo : string),
    authActive (auth req) = true ->
    authInfo (auth req) = AuthApiKey key value addTo ->
    let entry := KV.mk true (parseTemplateString key envVars [])
                   (parseTemplateString value envVars []) in
    getComputedParams req envVars =
      (if addTo =? "Query params" then [mkComputedParam SourceAuth entry] else [])
    /\ ((forall h, In h (headers req) -> toLowerCase (KV.key h) <> "authorization") ->
        getComputedAuthHeaders req envVars =
          Returns (if addTo =? "Headers" then [entry] else []))
    /\ ((exists h, In h (headers req) /\ toLowerCase (KV.key h) = "authorization") ->
        getComputedAuthHeaders req envVars = Returns []).
Proof.
  intros C req envVars key value addTo Hact Hinfo entry. split; [|split].
  - unfold getComputedParams. rewrite Hact, Hinfo. simpl.
    now destruct (addTo =? "Query params").
  - intros Hno. unfold getComputedAuthHeaders.
    rewrite (auth_headers_unguarded req Hno), Hact, Hinfo. simpl.
    now destruct (addTo =? "Headers").
  - apply auth_headers_declared.
Qed.

Lemma X2_witness :
  getComputedParams (C := Reference.collaborators) apiKeyHeaderRequest
    [Var.mk "token" "abc"] = []
  /\ getComputedAuthHeaders (C := Reference.collaborators) apiKeyHeaderRequest
       [Var.mk "token" "abc"] = Returns [KV.mk true "X-Key" "abc"].
Proof.
  pose proof (X2_api_key_placement Reference.collaborators apiKeyHeaderRequest
                [Var.mk "token" "abc"] "X-Key" "{{token}}" "Headers"
                eq_refl eq_refl) as [Hp [Hh _]].
  split; [exact Hp|].
  apply Hh. intros h [].
Defined.

(** X3: no request gets both an auth-derived header and an auth-derived
    parameter. *)
Theorem X3_auth_header_and_param_exclusive :
  forall (C : Collaborators) (req : HoppRESTRequest) (envVars : Variables),
    getComputedAuthHeaders req envVars = Returns []
    \/ getComputedParams req envVars = [].
Proof.
  intros C req envVars. unfold getComputedParams.
  destruct (authActive (auth req)) eqn:Hact; [|now right]. simpl.
  destruct (authInfo (auth req)) as [| | | |key value addTo] eqn:Hinfo;
    try now right.
  destruct (addTo =? "Query params") eqn:Hq; [|now right].
  left. apply String.eqb_eq in Hq. subst addTo.
  unfold getComputedAuthHeaders. destruct_find E; [reflexivity|].
  now rewrite Hact, Hinfo.
Qed.

(** X4: with inactive authentication nothing is derived from it, whatever
    its type and fields: the computed headers are the body-derived ones and
    there is no computed parameter. *)
Theorem X4_inactive_auth_computes_nothing :
  forall (C : Collaborators) (req : HoppRESTRequest) (envVars : Variables),
    authActive (auth req) = false ->
    getComputedAuthHeaders req envVars = Returns []
    /\ getComputedParams req envVars = []
    /\ exists chs,
         getComputedHeaders req envVars = Returns chs
         /\ map header chs = getComputedBodyHeaders req.
Proof.
  intros C req envVars Hact.
  assert (Hauth : getComputedAuthHeaders req envVars = Returns []).
  { unfold getComputedAuthHeaders. destruct_find E; [reflexivity|].
    now rewrite Hact. }
  split; [exact Hauth|]. split.
  - unfold getComputedParams. now rewrite Hact.
  - eexists. split; [rewrite computed_headers_cases, Hauth; reflexivity|].
    simpl. rewrite map_map. simpl. apply map_id.
Qed.

Lemma X4_witness :
  getComputedAuthHeaders (C := Reference.collaborators) inactiveAuthRequest [] =
    Returns []
  /\ getComputedParams (C := Reference.collaborators) inactiveAuthRequest [] = []
  /\ exists chs,
       getComputedHeaders (C := Reference.collaborators) inactiveAuthRequest [] =
         Returns chs
       /\ map header chs = [KV.mk true "content-type" "application/json"].
Proof.
  exact (X4_inactive_auth_computes_nothing Reference.collaborators
           inactiveAuthRequest [] eq_refl).
Defined.

Lemma body_headers_length req :
  (List.length (getComputedBodyHeaders req) <= 1)%nat.
Proof.
  destruct (body_headers_cases req) as [[_ ->]|[_ ->]]; [simpl; lia|].
  destruct (contentType (body req)); simpl; lia.
Qed.

Lemma computed_params_length {C : Collaborators} req envVars :
  (List.length (getComputedParams req envVars) <= 1)%nat.
Proof.
  unfold getComputedParams.
  destruct (negb (authActive (auth req))); [simpl; lia|].
  destruct (authInfo (auth req)) as [| | | |key value addTo]; simpl; try lia.
  destruct (negb (addTo =? "Query params")); simpl; lia.
Qed.

Lemma resolveEntries_app {C : Collaborators} scope (l1 l2 : list KV.t) :
  resolveEntries scope (l1 ++ l2) =
    (resolveEntries scope l1 ++ resolveEntries scope l2)%list.
Proof. unfold resolveEntries. now rewrite filter_app, map_app. Qed.

Lemma resolveEntries_length {C : Collaborators} scope (l : list KV.t) :
  (List.length (resolveEntries scope l) <= List.length l)%nat.
Proof.
  unfold resolveEntries. rewrite length_map. apply filter_length_le.
Qed.

(** The layout of the final lists, the auth-derived headers being [a]. *)
Lemma final_lists_layout {C : Collaborators} {R : Type} req env (s : Store R) a :
  getComputedAuthHeaders req (variables env ++ getGlobalVariables s) = Returns a ->
  exists eff,
    getEffectiveRESTRequest req env s = (Returns eff, s)
    /\ effectiveFinalHeaders eff =
         (resolveEntries (variables env ++ getGlobalVariables s) a
          ++ resolveEntries (variables env ++ getGlobalVariables s)
               (getComputedBodyHeaders req)
          ++ resolveEntries (variables env ++ getGlobalVariables s) (headers req))%list
    /\ effectiveFinalParams eff =
         (resolveEntries (variables env ++ getGlobalVariables s)
            (map param
               (getComputedParams req (variables env ++ getGlobalVariables s)))
          ++ resolveEntries (variables env ++ getGlobalVariables s) (params req))%list.
Proof.
  intros Ha. rewrite effective_request_cases, computed_headers_cases, Ha.
  eexists. split; [reflexivity|]. simpl. split.
  - rewrite map_app, !map_map. simpl. rewrite !map_id.
    now rewrite <- app_assoc, !resolveEntries_app.
  - now rewrite resolveEntries_app.
Qed.

(** The body-derived header, once synthesised, goes through the resolution
    of the assembler like every other kept entry. *)
Lemma body_header_in_final_headers {C : Collaborators} {R : Type} (s : Store R)
    (req : HoppRESTRequest) (env : Environment) (ct : string)
    (eff : EffectiveHoppRESTRequest) :
  getEffectiveRESTRequest req env s = (Returns eff, s) ->
  In (KV.mk true "content-type" ct) (getComputedBodyHeaders req) ->
  In (resolvedEntry (variables env ++ getGlobalVariables s)
        (KV.mk true "content-type" ct))
     (effectiveFinalHeaders eff).
Proof.
  intros Heff Hin. rewrite effective_request_cases, computed_headers_cases in Heff.
  destruct (getComputedAuthHeaders req _) as [a|e]; [|discriminate].
  injection Heff as <-. simpl.
  apply resolveEntries_in. exists (KV.mk true "content-type" ct).
  repeat split; try discriminate.
  apply in_or_app. left. rewrite map_app. apply in_or_app. right.
  rewrite map_map. simpl. now rewrite map_id.
Qed.

(** X5: unless the auth-derived headers throw, and the call with them, the
    assembled lists put the auth-derived entries first, then the
    body-derived header, then the declared entries in their declared order;
    the request gets at most two headers and one parameter it did not
    declare. *)
Theorem X5_final_lists_layout :
  forall (C : Collaborators) (R : Type) (s : Store R) (req : HoppRESTRequest)
         (env : Environment),
    let scope := (variables env ++ getGlobalVariables s)%list in
    match getComputedAuthHeaders req scope with
    | Throws e => getEffectiveRESTRequest req env s = (Throws e, s)
    | Returns a =>
        exists eff,
          getEffectiveRESTRequest req env s = (Returns eff, s)
          /\ effectiveFinalHeaders eff =
               (resolveEntries scope a
                ++ resolveEntries scope (getComputedBodyHeaders req)
                ++ resolveEntries scope (headers req))%list
          /\ effectiveFinalParams eff =
               (resolveEntries scope (map param (getComputedParams req scope))
                ++ resolveEntries scope (params req))%list
          /\ (List.length (effectiveFinalHeaders eff)
              <= 2 + List.length (headers req))%nat
          /\ (List.length (effectiveFinalParams eff)
              <= 1 + List.length (params req))%nat
    end.
Proof.
  intros C R s req env scope.
  destruct (getComputedAuthHeaders req scope) as [a|e] eqn:Ha.
  - destruct (final_lists_layout req env s a Ha) as [eff [Heff [Hh Hp]]].
    fold scope in Hh, Hp.
    exists eff. split; [exact Heff|]. split; [exact Hh|]. split; [exact Hp|].
    split.
    + rewrite Hh, !length_app.
      pose proof (resolveEntries_length scope a).
      pose proof (resolveEntries_length scope (getComputedBodyHeaders req)).
      pose proof (resolveEntries_length scope (headers req)).
      pose proof (proj1 (auth_headers_returned req scope a Ha)).
      pose proof (body_headers_length req).
      unfold HoppRESTHeader in *. lia.
    + rewrite Hp, !length_app.
      pose proof (resolveEntries_length scope
                    (map param (getComputedParams req scope))) as H1.
      rewrite length_map in H1.
      pose proof (resolveEntries_length scope (params req)).
      pose proof (computed_params_length req scope).
      unfold HoppRESTParam in *. lia.
  - rewrite effective_request_cases, computed_headers_cases. fold scope.
    now rewrite Ha.
Qed.

Lemma resolveEntries_blank_key {C : Collaborators} scope (v : string) :
  resolveEntries scope [KV.mk true "" v] = [].
Proof. reflexivity. Qed.

(** X6: a header derived from bearer or OAuth 2 authentication is resolved
    twice, once by the deriver and once by the assembler, where a declared
    header is resolved once: the final list starts with [Authorization]
    resolved, valued by the resolution of ["Bearer "] followed by the
    resolved token. *)
Theorem X6_computed_header_resolved_twice :
  forall (C : Collaborators) (R : Type) (s : Store R) (req : HoppRESTRequest)
         (env : Environment) (tok : string),
    authActive (auth req) = true ->
    authInfo (auth req) = AuthBearer tok \/ authInfo (auth req) = AuthOAuth2 tok ->
    (forall h, In h (headers req) -> toLowerCase (KV.key h) <> "authorization") ->
    exists eff,
      getEffectiveRESTRequest req env s = (Returns eff, s)
      /\ effectiveFinalHeaders eff =
           (KV.mk true
              (parseTemplateString "Authorization"
                 (variables env ++ getGlobalVariables s) [])
              (parseTemplateString
                 ("Bearer " ++ parseTemplateString tok
                                 (variables env ++ getGlobalVariables s) [])
                 (variables env ++ getGlobalVariables s) [])
            :: resolveEntries (variables env ++ getGlobalVariables s)
                 (getComputedBodyHeaders req)
            ++ resolveEntries (variables env ++ getGlobalVariables s)
                 (headers req))%list.
Proof.
  intros C R s req env tok Hact Hinfo Hno.
  assert (Ha : getComputedAuthHeaders req (variables env ++ getGlobalVariables s) =
      Returns
        [ KV.mk true "Authorization"
            ("Bearer " ++ parseTemplateString tok
                            (variables env ++ getGlobalVariables s) []) ]).
  { unfold getComputedAuthHeaders.
    rewrite (auth_headers_unguarded req Hno), Hact.
    destruct Hinfo as [-> | ->]; reflexivity. }
  destruct (final_lists_layout req env s _ Ha) as [eff [Heff [Hh _]]].
  exists eff. split; [exact Heff|]. rewrite Hh. reflexivity.
Qed.

(** The token [{{t}}], with [t] bound to [{{u}}] and [u] to [x], ends as
    [Bearer x]; the declared header of the same value ends as [{{u}}]. *)
Lemma X6_witness :
  exists eff,
    getEffectiveRESTRequest (C := Reference.collaborators)
      bearerRequest nestedEnvironment emptyStore = (Returns eff, emptyStore)
    /\ effectiveFinalHeaders eff =
         [ KV.mk true "Authorization" "Bearer x"; KV.mk true "X-Token" "{{u}}" ].
Proof.
  refine (X6_computed_header_resolved_twice Reference.collaborators unit
            emptyStore bearerRequest nestedEnvironment "{{t}}" eq_refl
            (or_introl eq_refl) _).
  intros h [<-|[]]. discriminate.
Defined.

(** X7: an API key whose key resolves to the empty string leaves no trace:
    the final parameters and the final headers are those of the request
    without the authentication. *)
Theorem X7_blank_api_key_dropped :
  forall (C : Collaborators) (R : Type) (s : Store R) (req : HoppRESTRequest)
         (env : Environment) (key value addTo : string),
    authActive (auth req) = true ->
    authInfo (auth req) = AuthApiKey key value addTo ->
    parseTemplateString key (variables env ++ getGlobalVariables s) [] = "" ->
    exists eff,
      getEffectiveRESTRequest req env s = (Returns eff, s)
      /\ effectiveFinalParams eff =
           resolveEntries (variables env ++ getGlobalVariables s) (params req)
      /\ effectiveFinalHeaders eff =
           (resolveEntries (variables env ++ getGlobalVariables s)
              (getComputedBodyHeaders req)
            ++ resolveEntries (variables env ++ getGlobalVariables s)
                 (headers req))%list.
Proof.
  intros C R s req env key value addTo Hact Hinfo Hblank.
  assert (Ha : exists a,
             getComputedAuthHeaders req (variables env ++ getGlobalVariables s) =
               Returns a
             /\ resolveEntries (variables env ++ getGlobalVariables s) a = []).
  { unfold getComputedAuthHeaders. destruct_find E.
    - now exists [].
    - rewrite Hact, Hinfo. simpl. destruct (addTo =? "Headers").
      + eexists. split; [reflexivity|]. rewrite Hblank. reflexivity.
      + now exists []. }
  destruct Ha as [a [Ha Hnil]].
  destruct (final_lists_layout req env s a Ha) as [eff [Heff [Hh Hp]]].
  exists eff. split; [exact Heff|]. split.
  - rewrite Hp. unfold getComputedParams. rewrite Hact, Hinfo. simpl.
    destruct (addTo =? "Query params"); simpl; [|reflexivity].
    rewrite Hblank. reflexivity.
  - rewrite Hh, Hnil. reflexivity.
Qed.

Lemma X7_witness :
  exists eff,
    getEffectiveRESTRequest (C := Reference.collaborators)
      blankApiKeyRequest blankEnvironment emptyStore = (Returns eff, emptyStore)
    /\ effectiveFinalParams eff = [KV.mk true "q" "1"]
    /\ effectiveFinalHeaders eff = [].
Proof.
  exact (X7_blank_api_key_dropped Reference.collaborators unit emptyStore
           blankApiKeyRequest blankEnvironment
           "{{blank}}" "secret" "Query params" eq_refl eq_refl eq_refl).
Defined.

(** X8: when the declared [authorization] headers are all inactive, no
    header of the effective request stems from the authentication or from
    those declared headers: the declared ones suppress the auth-derived
    header and are filtered out themselves, so the final headers are the
    resolutions of the body-derived header and of the active declared
    headers of the request whose declared key is not [authorization]. *)
Theorem X8_inactive_authorization_header_removes_auth :
  forall (C : Collaborators) (R : Type) (s : Store R) (req : HoppRESTRequest)
         (env : Environment),
    (exists h, In h (headers req) /\ toLowerCase (KV.key h) = "authorization") ->
    (forall h, In h (headers req) -> toLowerCase (KV.key h) = "authorization" ->
               KV.active h = false) ->
    exists eff,
      getEffectiveRESTRequest req env s = (Returns eff, s)
      /\ effectiveFinalHeaders eff =
           (resolveEntries (variables env ++ getGlobalVariables s)
              (getComputedBodyHeaders req)
            ++ resolveEntries (variables env ++ getGlobalVariables s)
                 (headers req))%list
      /\ (forall y,
            In y (effectiveFinalHeaders eff) <->
            exists x,
              (In x (getComputedBodyHeaders req) \/ In x (headers req))
              /\ KV.active x = true /\ KV.key x <> ""
              /\ toLowerCase (KV.key x) <> "authorization"
              /\ y = resolvedEntry (variables env ++ getGlobalVariables s) x).
Proof.
  intros C R s req env Hdecl Hinactive.
  pose proof (auth_headers_declared req
                (variables env ++ getGlobalVariables s) Hdecl) as Ha.
  destruct (final_lists_layout req env s [] Ha) as [eff [Heff [Hh _]]].
  exists eff. split; [exact Heff|]. split; [exact Hh|].
  intros y. rewrite Hh. simpl. rewrite in_app_iff, !resolveEntries_in. split.
  - intros [[x [Hx [Hact [Hk ->]]]]|[x [Hx [Hact [Hk ->]]]]];
      exists x; repeat split; auto.
    + destruct (body_headers_cases req) as [[_ Hnil]|[_ Hb]].
      * rewrite Hnil in Hx. destruct Hx.
      * rewrite Hb in Hx. destruct (contentType (body req)); [|destruct Hx].
        destruct Hx as [<-|[]]. discriminate.
    + intros Hkey. rewrite (Hinactive x Hx Hkey) in Hact. discriminate.
  - intros [x [[Hx|Hx] [Hact [Hk [_ ->]]]]]; [left|right]; now exists x.
Qed.

(** Basic authentication is active, and the final list has no header. *)
Lemma X8_witness :
  exists eff,
    getEffectiveRESTRequest (C := Reference.collaborators)
      basicRequestWithInactiveHeader tokenEnvironment emptyStore =
      (Returns eff, emptyStore)
    /\ effectiveFinalHeaders eff = [].
Proof.
  destruct (X8_inactive_authorization_header_removes_auth
              Reference.collaborators unit emptyStore
              basicRequestWithInactiveHeader tokenEnvironment)
    as [eff [Heff [Hh _]]].
  - exists (KV.mk false "AUTHORIZATION" "mine"). split; [now left|reflexivity].
  - intros h [<-|[]] _. reflexivity.
  - exists eff. split; [exact Heff|exact Hh].
Defined.

(** ** Further properties of the body materialisation *)

(** X9: the materialised body is absent exactly when the request has no
    body or when its urlencoded text does not parse, and it is a form
    container exactly when the body is multipart; a urlencoded body whose
    entries are all filtered out still gives a string. *)
Theorem X9_final_body_kind :
  forall (C : Collaborators) (req : HoppRESTRequest) (envVariables : Variables),
    (getFinalBodyFromRequest req envVariables = FinalNull <->
     body req = BodyNone
     \/ exists raw e, body req = BodyUrlEncoded raw
                      /\ parseRawKeyValueEntriesE raw = Left e)
    /\ ((exists fd, getFinalBodyFromRequest req envVariables = FinalFormData fd) <->
        exists entries, body req = BodyMultipart entries).
Proof.
  intros C req envVariables. unfold getFinalBodyFromRequest.
  destruct (body req) as [|raw|entries|ct raw] eqn:Hbody.
  - split; split.
    + now left.
    + reflexivity.
    + intros [fd H]. discriminate.
    + intros [entries H]. discriminate.
  - destruct (parseRawKeyValueEntriesE raw) as [e|entries] eqn:Hparse; split; split.
    + intros _. right. now exists raw, e.
    + reflexivity.
    + intros [fd H]. discriminate.
    + intros [entries H]. discriminate.
    + discriminate.
    + intros [H|[raw' [e [H He]]]]; [discriminate|].
      injection H as <-. congruence.
    + intros [fd H]. discriminate.
    + intros [entries' H]. discriminate.
  - split; split.
    + discriminate.
    + intros [H|[raw [e [H _]]]]; discriminate.
    + intros _. now exists entries.
    + intros _. eexists. reflexivity.
  - split; split.
    + discriminate.
    + intros [H|[raw' [e [H _]]]]; discriminate.
    + intros [fd H]. discriminate.
    + intros [entries H]. discriminate.
Qed.

(** X10: a pair reaches the urlencoded serialiser exactly when it is the
    checked resolution of the key and the value of an active entry with a
    non-empty key; the pairs are never more than the entries, and the pairs
    of a concatenation are the pairs of its parts, in order. *)
Theorem X10_urlencoded_pairs :
  forall (C : Collaborators) (envVariables : Variables)
         (entries : list RawKeyValueEntry),
    (forall k v,
        In (k, v) (urlEncodedPairs envVariables entries) <->
        exists e, In e entries /\ KV.active e = true /\ KV.key e <> ""
                  /\ parseTemplateStringE (KV.key e) envVariables = Right k
                  /\ parseTemplateStringE (KV.value e) envVariables = Right v)
    /\ (List.length (urlEncodedPairs envVariables entries)
        <= List.length entries)%nat
    /\ (forall more,
          urlEncodedPairs envVariables (entries ++ more) =
            (urlEncodedPairs envVariables entries
             ++ urlEncodedPairs envVariables more)%list).
Proof.
  intros C envVariables entries. split; [|split].
  - intros k v. unfold urlEncodedPairs. rewrite in_filterMap. split.
    + intros [[ek ev] [Hin Hf]]. apply in_map_iff in Hin.
      destruct Hin as [e [Heq Hin]]. apply filter_In in Hin.
      destruct Hin as [Hin Hp]. apply andb_true_iff in Hp.
      destruct Hp as [Ha Hk]. apply negb_true_iff, String.eqb_neq in Hk.
      injection Heq as <- <-. exists e.
      destruct (parseTemplateStringE (KV.key e) envVariables);
        destruct (parseTemplateStringE (KV.value e) envVariables);
        try discriminate.
      injection Hf as <- <-. repeat split; assumption.
    + intros [e [Hin [Ha [Hk [Ek Ev]]]]]. exists (Right k, Right v).
      split; [|reflexivity]. apply in_map_iff. exists e. split.
      * now rewrite Ek, Ev.
      * apply filter_In. split; [exact Hin|]. rewrite Ha. simpl.
        now apply negb_true_iff, String.eqb_neq.
  - rewrite urlEncodedPairs_refines.
    induction entries as [|e rest IH]; simpl; [lia|].
    destruct (KV.active e && negb (KV.key e =? "")); [|lia].
    destruct (parseTemplateStringE (KV.key e) envVariables);
      destruct (parseTemplateStringE (KV.value e) envVariables); simpl; lia.
  - intros more. rewrite !urlEncodedPairs_refines.
    induction entries as [|e rest IH]; simpl; [reflexivity|].
    destruct (KV.active e && negb (KV.key e =? "")); [|exact IH].
    destruct (parseTemplateStringE (KV.key e) envVariables);
      destruct (parseTemplateStringE (KV.value e) envVariables);
      simpl; now rewrite ?IH.
Qed.

Lemma splitBlobs_length {C : Collaborators} envVariables (x : FormDataKeyValue) :
  List.length (splitBlobs envVariables x) = expansionCount x.
Proof.
  unfold splitBlobs, expansionCount.
  destruct (FD.value x); [apply length_map|reflexivity].
Qed.

Lemma in_splitBlobs {C : Collaborators} envVariables (x : FormDataKeyValue)
    (k : string) (v : FormDataEntryValue) :
  In (k, v) (splitBlobs envVariables x) <->
  k = parseTemplateString (FD.key x) envVariables []
  /\ ((exists blobs b, FD.value x = FileValue blobs /\ In b blobs /\ v = EntryBlob b)
      \/ (exists s, FD.value x = TextValue s
                    /\ v = EntryText (parseTemplateString s envVariables []))).
Proof.
  unfold splitBlobs. destruct (FD.value x) as [blobs|s]; split.
  - intros Hin. apply in_map_iff in Hin. destruct Hin as [b [Heq Hb]].
    injection Heq as <- <-. split; [reflexivity|]. left. now exists blobs, b.
  - intros [-> [[blobs' [b [Heq [Hb ->]]]]|[s [Heq _]]]]; [|discriminate].
    injection Heq as <-. apply in_map_iff. now exists b.
  - intros [Heq|[]]. injection Heq as <- <-. split; [reflexivity|].
    right. now exists s.
  - intros [-> [[blobs [b [Heq _]]]|[s' [Heq ->]]]]; [discriminate|].
    injection Heq as <-. now left.
Qed.

Lemma splitBlobs_kind {C : Collaborators} envVariables (x : FormDataKeyValue) :
  Forall (fun e => isEntryText e = negb (FD.isFile x)) (splitBlobs envVariables x).
Proof.
  unfold splitBlobs, FD.isFile. destruct (FD.value x) as [blobs|s].
  - apply Forall_forall. intros e Hin. apply in_map_iff in Hin.
    destruct Hin as [b [<- _]]. reflexivity.
  - repeat constructor.
Qed.

Lemma multipart_body_eq {C : Collaborators} req envVariables entries :
  body req = BodyMultipart entries ->
  getFinalBodyFromRequest req envVariables =
    FinalFormData
      (flat_map (splitBlobs envVariables)
         (arraySort filesDownCompare (filter keptFormEntry entries))).
Proof. intros Hbody. unfold getFinalBodyFromRequest. now rewrite Hbody. Qed.

Lemma reference_sort_permutation (l : list FormDataKeyValue) :
  Permutation l (Reference.sortLaterEarlier _ filesDownCompare l).
Proof. rewrite sortLaterEarlier_files_down. apply Permutation_text_file. Qed.

(** X11: when the sort routine returns a rearrangement of its input, the
    multipart container is a rearrangement of the expansions of the entries
    that are active and have a key: a text entry gives one field, a file
    entry one field per blob and none when it has no blob, and nothing else
    is added or lost. *)
Theorem X11_multipart_container_complete :
  forall (C : Collaborators) (req : HoppRESTRequest) (envVariables : Variables)
         (entries : list FormDataKeyValue),
    body req = BodyMultipart entries ->
    Permutation (filter keptFormEntry entries)
      (arraySort filesDownCompare (filter keptFormEntry entries)) ->
    exists fd,
      getFinalBodyFromRequest req envVariables = FinalFormData fd
      /\ Permutation
           (flat_map (splitBlobs envVariables) (filter keptFormEntry entries)) fd
      /\ List.length fd =
           list_sum (map expansionCount (filter keptFormEntry entries)).
Proof.
  intros C req envVariables entries Hbody Hperm.
  eexists. split; [exact (multipart_body_eq req envVariables entries Hbody)|].
  assert (Hflat : Permutation
            (flat_map (splitBlobs envVariables) (filter keptFormEntry entries))
            (flat_map (splitBlobs envVariables)
               (arraySort filesDownCompare (filter keptFormEntry entries))))
    by (now apply Permutation_flat_map).
  split; [exact Hflat|].
  rewrite <- (Permutation_length Hflat), length_flat_map.
  f_equal. apply map_ext. intros x. apply splitBlobs_length.
Qed.

(** The file entry with two blobs gives two fields, the one without blob
    none, and the text entry one. *)
Lemma X11_witness :
  exists fd,
    getFinalBodyFromRequest (C := Reference.collaborators) blobsRequest
      [Var.mk "v" "1"] = FinalFormData fd
    /\ Permutation
         [ ("f", EntryBlob (BlobRef 1)); ("f", EntryBlob (BlobRef 2));
           ("a", EntryText "1") ] fd
    /\ List.length fd = 3%nat.
Proof.
  apply (X11_multipart_container_complete Reference.collaborators blobsRequest
           [Var.mk "v" "1"]
           [ FD.mk "f" true (FileValue [BlobRef 1; BlobRef 2]);
             FD.mk "none" true (FileValue []);
             FD.mk "a" true (TextValue "{{v}}") ] eq_refl).
  apply reference_sort_permutation.
Defined.

(** X12: under the same condition, a field is in the multipart container
    exactly when it comes from a declared entry that is active and has a
    non-empty key: its name is the resolved key, and its value is one of the
    blobs of a file entry, untouched, or the resolved text of a text
    entry. *)
Theorem X12_multipart_field_provenance :
  forall (C : Collaborators) (req : HoppRESTRequest) (envVariables : Variables)
         (entries : list FormDataKeyValue) (fd : FormData),
    body req = BodyMultipart entries ->
    Permutation (filter keptFormEntry entries)
      (arraySort filesDownCompare (filter keptFormEntry entries)) ->
    getFinalBodyFromRequest req envVariables = FinalFormData fd ->
    forall k v,
      In (k, v) fd <->
      exists x,
        In x entries /\ FD.active x = true /\ FD.key x <> ""
        /\ k = parseTemplateString (FD.key x) envVariables []
        /\ ((exists blobs b,
               FD.value x = FileValue blobs /\ In b blobs /\ v = EntryBlob b)
            \/ (exists s,
                  FD.value x = TextValue s
                  /\ v = EntryText (parseTemplateString s envVariables []))).
Proof.
  intros C req envVariables entries fd Hbody Hperm Hfd k v.
  rewrite (multipart_body_eq req envVariables entries Hbody) in Hfd.
  injection Hfd as <-. rewrite in_flat_map. split.
  - intros [x [Hx Hin]].
    apply (Permutation_in _ (Permutation_sym Hperm)) in Hx.
    apply filter_In in Hx. destruct Hx as [Hx Hkept].
    unfold keptFormEntry in Hkept. apply andb_true_iff in Hkept.
    destruct Hkept as [Hk Ha]. apply negb_true_iff, String.eqb_neq in Hk.
    apply in_splitBlobs in Hin. destruct Hin as [Hkey Hval].
    exists x. repeat split; assumption.
  - intros [x [Hx [Ha [Hk [Hkey Hval]]]]]. exists x. split.
    + apply (Permutation_in _ Hperm). apply filter_In. split; [exact Hx|].
      unfold keptFormEntry. rewrite Ha.
      apply String.eqb_neq in Hk. now rewrite Hk.
    + apply in_splitBlobs. now split.
Qed.

Lemma X12_witness :
  In ("f", EntryBlob (BlobRef 2))
     [ ("a", EntryText "1"); ("f", EntryBlob (BlobRef 1));
       ("f", EntryBlob (BlobRef 2)) ] <->
  exists x,
    In x [ FD.mk "f" true (FileValue [BlobRef 1; BlobRef 2]);
           FD.mk "none" true (FileValue []);
           FD.mk "a" true (TextValue "{{v}}") ]
    /\ FD.active x = true /\ FD.key x <> ""
    /\ "f" = Reference.parseTemplateString (FD.key x) [Var.mk "v" "1"] []
    /\ ((exists blobs b,
           FD.value x = FileValue blobs /\ In b blobs
           /\ EntryBlob (BlobRef 2) = EntryBlob b)
        \/ (exists s,
              FD.value x = TextValue s
              /\ EntryBlob (BlobRef 2) =
                 EntryText (Reference.parseTemplateString s [Var.mk "v" "1"] []))).
Proof.
  apply (X12_multipart_field_provenance Reference.collaborators blobsRequest
           [Var.mk "v" "1"] _ _ eq_refl).
  - apply reference_sort_permutation.
  - reflexivity.
Defined.

(** X13: when the sort routine returns a stable sorting for the comparator,
    the multipart container holds the text fields first, in the declared
    order of their entries, and the blobs behind them. *)
Theorem X13_multipart_text_fields_first :
  forall (C : Collaborators) (req : HoppRESTRequest) (envVariables : Variables)
         (entries : list FormDataKeyValue),
    body req = BodyMultipart entries ->
    StableSorting filesDownCompare (filter keptFormEntry entries)
      (arraySort filesDownCompare (filter keptFormEntry entries)) ->
    exists files,
      Permutation files (filter FD.isFile (filter keptFormEntry entries))
      /\ getFinalBodyFromRequest req envVariables =
           FinalFormData
             (flat_map (splitBlobs envVariables)
                (filter isText (filter keptFormEntry entries))
              ++ flat_map (splitBlobs envVariables) files)%list
      /\ Forall (fun e => isEntryText e = true)
           (flat_map (splitBlobs envVariables)
              (filter isText (filter keptFormEntry entries)))
      /\ Forall (fun e => isEntryText e = false)
           (flat_map (splitBlobs envVariables) files).
Proof.
  intros C req envVariables entries Hbody Hsort.
  destruct (stable_sorting_files_last _ _ Hsort) as [Heq Hperm].
  exists (filter FD.isFile
            (arraySort filesDownCompare (filter keptFormEntry entries))).
  split; [exact Hperm|]. split; [|split].
  - rewrite (multipart_body_eq req envVariables entries Hbody).
    rewrite Heq at 1. now rewrite flat_map_app.
  - apply Forall_flat_map, Forall_forall. intros x Hx.
    apply filter_In in Hx. destruct Hx as [_ Hx]. unfold isText in Hx.
    pose proof (splitBlobs_kind envVariables x) as Hkind.
    now rewrite Hx in Hkind.
  - apply Forall_flat_map, Forall_forall. intros x Hx.
    apply filter_In in Hx. destruct Hx as [_ Hx].
    pose proof (splitBlobs_kind envVariables x) as Hkind.
    now rewrite Hx in Hkind.
Qed.

Lemma X13_witness :
  exists files,
    Permutation files [FD.mk "f" true (FileValue [BlobRef 1])]
    /\ getFinalBodyFromRequest (C := Reference.collaborators)
         fileThenTextRequest [] =
       FinalFormData ([("a", EntryText "1")]
                      ++ flat_map (splitBlobs (C := Reference.collaborators) []) files)%list
    /\ Forall (fun e => isEntryText e = true) [("a", EntryText "1")]
    /\ Forall (fun e => isEntryText e = false)
         (flat_map (splitBlobs (C := Reference.collaborators) []) files).
Proof.
  apply (X13_multipart_text_fields_first Reference.collaborators
           fileThenTextRequest []
           [ FD.mk "f" true (FileValue [BlobRef 1]);
             FD.mk "off" false (TextValue "0");
             FD.mk "" true (TextValue "0");
             FD.mk "a" true (TextValue "1") ] eq_refl).
  unfold arraySort, Reference.collaborators.
  rewrite sortLaterEarlier_files_down.
  apply stable_sorting_of_partition. reflexivity.
Defined.

(** ** Resolution of the variables in a body *)

(** X14: resolving the variables of a body keeps its shape: the content
    type is the same, so the body-derived header is the same, and a
    multipart body keeps every entry, inactive and keyless ones included,
    with its flag and its kind, the key resolved and the blobs untouched. *)
Theorem X14_resolvesEnvsInBody_keeps_shape :
  forall (C : Collaborators) (b : HoppRESTReqBody) (env : Environment),
    contentType (resolvesEnvsInBody b env) = contentType b
    /\ (forall req,
          getComputedBodyHeaders (withBody (resolvesEnvsInBody b env) req) =
          getComputedBodyHeaders (withBody b req))
    /\ (forall entries,
          b = BodyMultipart entries ->
          exists es,
            resolvesEnvsInBody b env = BodyMultipart es
            /\ Forall2
                 (fun e e' =>
                    FD.active e' = FD.active e
                    /\ FD.isFile e' = FD.isFile e
                    /\ FD.key e' = parseTemplateString (FD.key e) (variables env) []
                    /\ (forall blobs, FD.value e = FileValue blobs ->
                                      FD.value e' = FileValue blobs))
                 entries es).
Proof.
  intros C b env.
  assert (Hct : contentType (resolvesEnvsInBody b env) = contentType b).
  { destruct b as [|raw|entries|ct raw]; simpl; try reflexivity.
    now destruct (ct =? ""). }
  split; [exact Hct|]. split.
  - intros req. unfold getComputedBodyHeaders. simpl. now rewrite Hct.
  - intros entries ->. simpl. eexists. split; [reflexivity|]. clear Hct.
    induction entries as [|e entries IH]; simpl; [constructor|].
    constructor; [|exact IH].
    unfold FD.isFile. simpl. repeat split.
    + now destruct (FD.value e).
    + intros blobs ->. reflexivity.
Qed.
